(** * Rate-limit retry transport of packwiz (modrinth/ratelimit.go)

    A shallow embedding of [extractWaitTime], [rateLimitTransport.RoundTrip]
    and [newRateLimitHTTPClient], and the properties of the retry layer that
    the specification states about them.

    Conventions of the embedding.
    - Go strings are byte sequences: [string] (a list of [ascii] bytes).
    - [time.Duration] is an [int64] count of nanoseconds: a [Z] with the
      wrap-around of every arithmetic operation written out ([wrap64]).
    - Go [int] is taken as 64 bits wide (the platforms packwiz is built for).
    - [http.Header] is a [gmap string (list string)].
    - Effects (the delegate transport, the standard output, the clock) are
      threaded through an explicit [World]. *)

From Stdlib Require Import ZArith Ascii DecimalString.
From stdpp Require Import base numbers list strings gmap.

Local Open Scope Z_scope.

(* stdpp blocks the unfolding of string append under [simpl]. *)
#[local] Arguments String.append !_ _ / : simpl nomatch.

(** ** Fixed-width integers and durations *)

Definition wrap64 (z : Z) : Z := (z + 2 ^ 63) mod 2 ^ 64 - 2 ^ 63.

Definition maxInt64 : Z := 2 ^ 63 - 1.
Definition minInt64 : Z := - 2 ^ 63.

(** time.Duration constants (nanoseconds). *)
Definition Nanosecond : Z := 1.
Definition Millisecond : Z := 1000000.
Definition Second : Z := 1000000000.

(** [a * b], [a + b] on int64 / time.Duration. *)
Definition mul64 (a b : Z) : Z := wrap64 (a * b).
Definition add64 (a b : Z) : Z := wrap64 (a + b).
(** [a / b] on int64: Go truncates toward zero; the only overflow is
    [minInt64 / -1]. *)
Definition quot64 (a b : Z) : Z := wrap64 (Z.quot a b).
(** [a << n] on int64 with an unsigned shift count. *)
Definition shl64 (a n : Z) : Z := wrap64 (Z.shiftl a n).

(** ** Strings *)

Definition is_digit (c : ascii) : bool :=
  (48 <=? Z.of_nat (nat_of_ascii c)) && (Z.of_nat (nat_of_ascii c) <=? 57).

Definition digit_val (c : ascii) : Z := Z.of_nat (nat_of_ascii c) - 48.

Fixpoint all_digits (s : string) : bool :=
  match s with
  | EmptyString => true
  | String c s' => is_digit c && all_digits s'
  end.

(** [strings.HasPrefix] together with [strings.TrimPrefix]. *)
Fixpoint strip_prefix (p s : string) : option string :=
  match p, s with
  | EmptyString, _ => Some s
  | String a p', String b s' =>
      if Ascii.eqb a b then strip_prefix p' s' else None
  | String _ _, EmptyString => None
  end.

Fixpoint str_take (n : nat) (s : string) : string :=
  match n, s with
  | S n', String c s' => String c (str_take n' s')
  | _, _ => EmptyString
  end.

(** ** The regular expressions of [extractWaitTime]

    The two patterns use literals, one capturing group [(\d+)] and one
    optional byte [s?].  [exec] is the backtracking matcher for this
    fragment, with Go's leftmost-first preference: a greedy operator tries
    the longer alternative first and falls back on failure. *)

Inductive node : Type :=
| Lit (p : string)      (* a literal run of bytes *)
| CapDigits             (* (\d+) : group 1, greedy, ASCII digits only *)
| Opt (c : ascii).      (* c? : greedy *)

Definition regexp : Type := list node.

(** [Please wait (\d+) milliseconds?] *)
Definition msPattern : regexp :=
  [Lit "Please wait "; CapDigits; Lit " millisecond"; Opt "s"%char].

(** [Please wait (\d+) seconds?] *)
Definition secPattern : regexp :=
  [Lit "Please wait "; CapDigits; Lit " second"; Opt "s"%char].

Fixpoint digits_greedy {R : Type} (k : string -> string -> option R)
    (acc : string) (s : string) : option R :=
  match s with
  | String c s' =>
      if is_digit c then
        match digits_greedy k (acc +:+ String c EmptyString) s' with
        | Some r => Some r
        | None => k (acc +:+ String c EmptyString) s'
        end
      else None
  | EmptyString => None
  end.

(** [exec re cap s]: match [re] at the start of [s]; the result is the text
    of group 1 and the unconsumed rest of [s]. *)
Fixpoint exec (re : regexp) (cap : string) (s : string)
    : option (string * string) :=
  match re with
  | [] => Some (cap, s)
  | Lit p :: re' =>
      match strip_prefix p s with
      | Some s' => exec re' cap s'
      | None => None
      end
  | CapDigits :: re' => digits_greedy (fun d rest => exec re' d rest) EmptyString s
  | Opt c :: re' =>
      match s with
      | String c' s' =>
          if Ascii.eqb c c' then
            match exec re' cap s' with
            | Some r => Some r
            | None => exec re' cap s
            end
          else exec re' cap s
      | EmptyString => exec re' cap s
      end
  end.

(** [Regexp.FindStringSubmatch]: the leftmost match; the result holds the
    text of the whole match and of group 1, and is nil (the empty slice)
    when nothing matches. *)
Fixpoint FindStringSubmatch (re : regexp) (s : string) : list string :=
  match exec re EmptyString s with
  | Some (g, rest) => [str_take (String.length s - String.length rest) s; g]
  | None =>
      match s with
      | String _ s' => FindStringSubmatch re s'
      | EmptyString => []
      end
  end.

(** ** strconv.ParseInt(s, 10, 64) *)

Fixpoint parse_digits (acc : Z) (s : string) : option Z :=
  match s with
  | EmptyString => Some acc
  | String c s' =>
      if is_digit c then parse_digits (10 * acc + digit_val c) s' else None
  end.

(** [None] stands for a non-nil error (syntax or range). *)
Definition ParseInt (s : string) : option Z :=
  match s with
  | EmptyString => None
  | String c s' =>
      let '(neg, body) :=
        if Ascii.eqb c "+"%char then (false, s')
        else if Ascii.eqb c "-"%char then (true, s')
        else (false, s) in
      match body with
      | EmptyString => None
      | _ =>
          match parse_digits 0 body with
          | None => None
          | Some un =>
              if negb neg && (2 ^ 63 <=? un) then None
              else if neg && (2 ^ 63 <? un) then None
              else Some (if neg then - un else un)
          end
      end
  end.

(** ** extractWaitTime *)

Fixpoint extract_patterns (i : nat) (patterns : list regexp) (body : string)
    : Z :=
  match patterns with
  | [] => 0
  | pattern :: patterns' =>
      let matches := FindStringSubmatch pattern body in
      if (2 <=? length matches)%nat then
        match ParseInt (nth 1 matches EmptyString) with
        | Some value =>
            if (i =? 0)%nat then mul64 value Millisecond
            else mul64 value Second
        | None => extract_patterns (S i) patterns' body
        end
      else extract_patterns (S i) patterns' body
  end.

Definition extractWaitTime (body : string) : Z :=
  extract_patterns 0 [msPattern; secPattern] body.

(** ** Errors *)

Inductive error : Type :=
| errorString (msg : string)                 (* errors.New, fmt.Errorf *)
| wrapError (msg : string) (err : error).    (* fmt.Errorf with %w *)

Definition Error (e : error) : string :=
  match e with
  | errorString msg => msg
  | wrapError msg _ => msg
  end.

(** [%d] of an int. *)
Definition itoa (n : Z) : string := NilZero.string_of_int (Z.to_int n).

(** [strings.Contains]. *)
Definition Contains (s substr : string) : Prop :=
  exists pre post, s = pre +:+ substr +:+ post.

(** ** HTTP data *)

(** The caller's context: its deadline, if any, on the clock of the world
    (nanoseconds). *)
Record Context : Type := { deadline : option Z }.

Record Request : Type := {
  Method : string;
  URL : string;
  ctx : Context
}.

Definition Request_Context (req : Request) : Context := ctx req.

(** [req.Clone(c)]: a deep copy of [req] with its context changed to [c]. *)
Definition Clone (req : Request) (c : Context) : Request :=
  {| Method := Method req; URL := URL req; ctx := c |}.

(** A response body: what [io.ReadAll] returns for it. *)
Record ReadCloser : Type := {
  data : string;
  readErr : option error
}.

Definition ReadAll (b : ReadCloser) : string * option error :=
  (data b, readErr b).

Record Response : Type := {
  StatusCode : Z;
  Header : gmap string (list string);
  Body : ReadCloser
}.

Definition StatusTooManyRequests : Z := 429.

(** [Header.Get] with a key already in canonical form: the first value
    stored under the key, or the empty string. *)
Definition Header_Get (h : gmap string (list string)) (key : string) : string :=
  match h !! key with
  | Some (v :: _) => v
  | _ => EmptyString
  end.

(** An [http.RoundTripper] over a network in state [S]: given the request
    and the current time it answers with the pair (response, error) and
    the next state of the network. *)
Definition RoundTripper (S : Type) : Type :=
  Request -> Z -> S -> option Response * option error * S.

(** What the platform provides: the network behind the transports,
    [http.DefaultTransport], and float64 with [strconv.ParseFloat(s, 64)]
    ([None] for a non-nil error) and the conversion
    [time.Duration(seconds * float64(time.Second))]. *)
Class Platform : Type := {
  NetState : Type;
  DefaultTransport : RoundTripper NetState;
  float64 : Type;
  ParseFloat : string -> option float64;
  secondsToDuration : float64 -> Z
}.

(** ** The world a call runs in *)

Inductive event : Type :=
| EvRoundTrip (at_time : Z) (req : Request)   (* one dispatch through the delegate *)
| EvReadAll                                   (* io.ReadAll(resp.Body) *)
| EvClose                                     (* resp.Body.Close() *)
| EvPrintf (waitTime attempt maxRetries : Z)  (* the progress line *)
| EvSleep (d : Z).                            (* time.Sleep(d) *)

Record World `{Platform} : Type := {
  net : NetState;
  now : Z;
  log : list event
}.

Definition emit `{Platform} (e : event) (w : World) : World :=
  {| net := net w; now := now w; log := log w ++ [e] |}.

(** [time.Sleep(d)] returns at once when [d <= 0]; it does not look at any
    context. *)
Definition Sleep `{Platform} (d : Z) (w : World) : World :=
  {| net := net w; now := now w + Z.max 0 d; log := log w ++ [EvSleep d] |}.

Definition dispatch `{Platform} (rt : RoundTripper NetState) (req : Request)
    (w : World) : option Response * option error * World :=
  let '(resp, err, s) := rt req (now w) (net w) in
  (resp, err, {| net := s; now := now w; log := log w ++ [EvRoundTrip (now w) req] |}).

Definition is_dispatch (e : event) : bool :=
  match e with
  | EvRoundTrip _ _ => true
  | _ => false
  end.

(** Number of dispatches through the delegate recorded in a log. *)
Fixpoint dispatches (l : list event) : Z :=
  match l with
  | [] => 0
  | e :: l' => (if is_dispatch e then 1 else 0) + dispatches l'
  end.

Fixpoint sleeps (l : list event) : list Z :=
  match l with
  | [] => []
  | EvSleep d :: l' => d :: sleeps l'
  | _ :: l' => sleeps l'
  end.

(** ** rateLimitTransport *)

Record rateLimitTransport `{Platform} : Type := {
  Transport : option (RoundTripper NetState);   (* [None] is the nil interface *)
  MaxRetries : Z
}.

(** What a call of [RoundTrip] does: it returns the pair (resp, err), or
    panics (a nil dereference); [OutOfFuel] is the model's own outcome for a
    loop cut short, which [RoundTrip] never produces. *)
Inductive result : Type :=
| Return (resp : option Response) (err : option error)
| Panic
| OutOfFuel.

(** Lines 20-25: the defaults written into the receiver. *)
Definition applyDefaults `{Platform} (t : rateLimitTransport) : rateLimitTransport :=
  let t :=
    match Transport t with
    | None => {| Transport := Some DefaultTransport; MaxRetries := MaxRetries t |}
    | Some _ => t
    end in
  if MaxRetries t =? 0 then {| Transport := Transport t; MaxRetries := 5 |} else t.

(** Lines 53-62: the wait the server asks for, from the body, then from the
    Retry-After header; 0 when there is none. *)
Definition hintedWait `{Platform} (resp : Response) (bodyStr : string) : Z :=
  let waitTime := extractWaitTime bodyStr in
  if waitTime =? 0 then
    let retryAfter := Header_Get (Header resp) "Retry-After" in
    if negb (String.eqb retryAfter EmptyString) then
      match ParseFloat retryAfter with
      | Some seconds => wrap64 (secondsToDuration seconds)
      | None => waitTime
      end
    else waitTime
  else waitTime.

(** Line 66: [time.Duration(100*(1<<uint(attempt))) * time.Millisecond];
    the constants 100 and 1 take the type time.Duration. *)
Definition fallbackWait (attempt : Z) : Z :=
  mul64 (mul64 100 (shl64 1 attempt)) Millisecond.

(** Lines 53-67. *)
Definition computedWait `{Platform} (resp : Response) (bodyStr : string)
    (attempt : Z) : Z :=
  let waitTime := hintedWait resp bodyStr in
  if waitTime =? 0 then fallbackWait attempt else waitTime.

(** Line 70: [waitTime + (waitTime / 10) + (50 * time.Millisecond)]. *)
Definition bufferedWait (waitTime : Z) : Z :=
  add64 (add64 waitTime (quot64 waitTime 10)) (mul64 50 Millisecond).

Definition readFailed (readErr : error) : error :=
  wrapError ("failed to read rate limit response: " +:+ Error readErr) readErr.

Definition rateLimitExceeded (maxRetries : Z) : error :=
  errorString ("rate limit exceeded after " +:+ itoa maxRetries +:+
    " retries - Modrinth API is heavily rate limiting requests. Please try again later or contact Modrinth support if this persists").

(** One pass through the body of the loop either returns from [RoundTrip]
    or goes on to the next attempt with the variables [resp] and [err]. *)
Inductive pass : Type :=
| Done (r : result)
| Continue (resp : option Response) (err : option error).

(** Lines 31-84: the body of the loop for one value of [attempt]. *)
Definition attemptOnce `{Platform} (t : rateLimitTransport) (req : Request)
    (attempt : Z) (w : World) : pass * World :=
  let reqClone := Clone req (Request_Context req) in
  match Transport t with
  | None => (Done Panic, w)
  | Some rt =>
      let '(resp, err, w) := dispatch rt reqClone w in
      match err with
      | Some _ => (Done (Return resp err), w)
      | None =>
          match resp with
          | None => (Done Panic, w)
          | Some r =>
              if StatusCode r =? StatusTooManyRequests then
                let '(bodyBytes, readErr) := ReadAll (Body r) in
                let w := emit EvClose (emit EvReadAll w) in
                match readErr with
                | Some e => (Done (Return resp (Some (readFailed e))), w)
                | None =>
                    let bodyStr := bodyBytes in
                    let waitTime := bufferedWait (computedWait r bodyStr attempt) in
                    if attempt <? MaxRetries t then
                      let w := emit (EvPrintf waitTime (attempt + 1) (MaxRetries t)) w in
                      let w := Sleep waitTime w in
                      (Continue resp err, w)
                    else
                      (Done (Return resp (Some (rateLimitExceeded (MaxRetries t)))), w)
                end
              else (Done (Return resp None), w)
          end
      end
  end.

(** Lines 30-87: [for attempt := 0; attempt <= t.MaxRetries; attempt++]. *)
Fixpoint retryLoop `{Platform} (fuel : nat) (t : rateLimitTransport)
    (req : Request) (attempt : Z) (resp : option Response)
    (err : option error) (w : World) : result * World :=
  if attempt <=? MaxRetries t then
    match fuel with
    | O => (OutOfFuel, w)
    | S fuel' =>
        match attemptOnce t req attempt w with
        | (Done r, w') => (r, w')
        | (Continue resp' err', w') =>
            retryLoop fuel' t req (attempt + 1) resp' err' w'
        end
    end
  else (Return resp err, w).

(** [RoundTrip]: the result, the receiver after the call, and the world
    after the call.  The loop is entered at most [MaxRetries + 1] times. *)
Definition RoundTrip `{Platform} (t : rateLimitTransport) (req : Request)
    (w : World) : result * rateLimitTransport * World :=
  let t := applyDefaults t in
  let '(r, w) := retryLoop (Z.to_nat (MaxRetries t + 1)) t req 0 None None w in
  (r, t, w).

(** ** newRateLimitHTTPClient *)

Record Client `{Platform} : Type := { Client_Transport : rateLimitTransport }.

Definition newRateLimitHTTPClient `{Platform} : Client :=
  {| Client_Transport :=
       {| Transport := Some DefaultTransport; MaxRetries := 100 |} |}.

(** ** The wait phrases, as the specification words them *)

Fixpoint decimal_from (acc : Z) (ds : string) : Z :=
  match ds with
  | EmptyString => acc
  | String c ds' => decimal_from (10 * acc + digit_val c) ds'
  end.

(** The number a run of digits denotes. *)
Definition decimal (ds : string) : Z := decimal_from 0 ds.

Definition number (ds : string) : Prop :=
  all_digits ds = true /\ ds <> EmptyString.

Definition phrase (ds unit : string) : string :=
  "Please wait " +:+ ds +:+ " " +:+ unit.

(** [body] holds the phrase for the number [ds] and the unit [unit] right
    after [pre]. *)
Definition occurs (unit pre ds post body : string) : Prop :=
  number ds /\ body = pre +:+ phrase ds unit +:+ post.

Definition has_phrase (unit body : string) : Prop :=
  exists pre ds post, occurs unit pre ds post body.

(** [ds] is the number of the leftmost phrase for [unit] in [body]. *)
Definition first_phrase (unit body ds : string) : Prop :=
  exists pre post,
    occurs unit pre ds post body /\
    forall pre' ds' post',
      occurs unit pre' ds' post' body ->
      (String.length pre <= String.length pre')%nat.

(** The pattern of [extractWaitTime] for a unit. *)
Definition unitPattern (unit : string) : regexp :=
  [Lit "Please wait "; CapDigits; Lit (" " +:+ unit); Opt "s"%char].

Definition no_digit_head (s : string) : bool :=
  match s with
  | String c _ => negb (is_digit c)
  | EmptyString => true
  end.

(** The extraction property as the specification states it, for one body. *)
Definition extraction_as_stated (body : string) : Prop :=
  (forall pre ds post, occurs "milliseconds" pre ds post body ->
     extractWaitTime body = decimal ds * Millisecond) /\
  (forall pre ds post, occurs "seconds" pre ds post body ->
     extractWaitTime body = decimal ds * Second) /\
  (~ has_phrase "milliseconds" body -> ~ has_phrase "seconds" body ->
     extractWaitTime body = 0).

(** ** Vocabulary of the statements *)

(** The transport [RoundTrip] dispatches through: the field, or
    [http.DefaultTransport] when the field is nil. *)
Definition delegate `{Platform} (t : rateLimitTransport) : RoundTripper NetState :=
  match Transport t with
  | Some rt => rt
  | None => DefaultTransport
  end.

(** The retry ceiling [RoundTrip] runs with. *)
Definition ceiling `{Platform} (t : rateLimitTransport) : Z :=
  MaxRetries (applyDefaults t).

(** The world after one dispatch of [req] that left the network in [s]. *)
Definition dispatched `{Platform} (w : World) (s : NetState) (req : Request)
    : World :=
  {| net := s; now := now w;
     log := log w ++ [EvRoundTrip (now w) (Clone req (Request_Context req))] |}.

(** The world after the body of a 429 response was read and closed. *)
Definition drained `{Platform} (w : World) : World :=
  emit EvClose (emit EvReadAll w).

(** The world after the progress line and the sleep of attempt [attempt]. *)
Definition waited `{Platform} (d attempt maxRetries : Z) (w : World) : World :=
  Sleep d (emit (EvPrintf d (attempt + 1) maxRetries) w).

(** Every dispatch obtains a response (no transport-level error). *)
Definition dispatch_ok `{Platform} (rt : RoundTripper NetState) : Prop :=
  forall req tm s, exists r s', rt req tm s = (Some r, None, s').

(** Every dispatch obtains a 429 response. *)
Definition always_429 `{Platform} (rt : RoundTripper NetState) : Prop :=
  forall req tm s, exists r s',
    rt req tm s = (Some r, None, s') /\ StatusCode r = StatusTooManyRequests.

(** Every dispatch obtains a 429 response whose body can be read. *)
Definition always_429_readable `{Platform} (rt : RoundTripper NetState) : Prop :=
  forall req tm s, exists r s',
    rt req tm s = (Some r, None, s') /\
    StatusCode r = StatusTooManyRequests /\ readErr (Body r) = None.

Definition exhaustion_text (R : Z) : string :=
  "rate limit exceeded after " +:+ itoa R +:+ " retries".

(** The outcomes of a call with retry ceiling [R] when every dispatch
    obtains a response. *)
Inductive settled (R : Z) : result -> Prop :=
| settled_response r :
    StatusCode r <> StatusTooManyRequests ->
    settled R (Return (Some r) None)
| settled_exhausted r :
    StatusCode r = StatusTooManyRequests -> readErr (Body r) = None ->
    settled R (Return (Some r) (Some (rateLimitExceeded R)))
| settled_unreadable r e :
    StatusCode r = StatusTooManyRequests -> readErr (Body r) = Some e ->
    settled R (Return (Some r) (Some (readFailed e))).

(** The response has no Retry-After value that parses: the header is
    absent (or empty), or [ParseFloat] fails on it. *)
Definition no_header_hint `{Platform} (r : Response) : Prop :=
  Header_Get (Header r) "Retry-After" = EmptyString \/
  ParseFloat (Header_Get (Header r) "Retry-After") = None.

(** C1 as the specification states it. *)
Definition ceilings_as_stated `{Platform} : Prop :=
  (forall tr, ceiling {| Transport := tr; MaxRetries := 0 |} = 100) /\
  MaxRetries (Client_Transport newRateLimitHTTPClient) = 50.

(** C2 as the specification states it, for one call. *)
Definition exhaustion_as_stated `{Platform} (t : rateLimitTransport)
    (req : Request) (w : World) : Prop :=
  always_429 (delegate t) ->
  let run := RoundTrip t req w in
  dispatches (log run.2) - dispatches (log w) = MaxRetries t + 1 /\
  exists resp e,
    run.1.1 = Return resp (Some e) /\
    Contains (Error e) (exhaustion_text (MaxRetries t)).

(** C5 as the specification states it, for one call: once the deadline of
    the request has passed during the call, nothing is dispatched any more,
    the call ends at the deadline, and it ends with an error. *)
Definition cancellation_as_stated `{Platform} (t : rateLimitTransport)
    (req : Request) (w : World) : Prop :=
  forall d, deadline (ctx req) = Some d ->
  let run := RoundTrip t req w in
  now w <= d < now run.2 ->
  (forall tm rq, In (EvRoundTrip tm rq) (log run.2) -> tm <= d) /\
  now run.2 = d /\
  exists resp e, run.1.1 = Return resp (Some e).

(** C6 as the specification states it, for one call. *)
Definition frame_as_stated `{Platform} (t : rateLimitTransport)
    (req : Request) (w : World) : Prop :=
  let t' := (RoundTrip t req w).1.2 in
  Transport t' = Transport t /\ MaxRetries t' = MaxRetries t.

(** C7 as the specification states it, for one call. *)
Definition outcome_as_stated `{Platform} (t : rateLimitTransport)
    (req : Request) (w : World) : Prop :=
  dispatch_ok (delegate t) ->
  let res := (RoundTrip t req w).1.1 in
  (exists r, res = Return (Some r) None /\ StatusCode r <> StatusTooManyRequests) \/
  (exists R, res = Return None (Some (rateLimitExceeded R))).

(** C4 and C8 as the specification states them, in unbounded arithmetic. *)
Definition fallback_as_stated (R : Z) : Prop :=
  forall i, 0 <= i <= R ->
    fallbackWait i = 100 * Millisecond * 2 ^ i /\
    (i < R -> fallbackWait i < fallbackWait (i + 1)).

Definition buffer_as_stated (w : Z) : Prop :=
  bufferedWait w = w + Z.quot w 10 + 50 * Millisecond.

(** ** A simulated platform, to run the model on concrete inputs

    The network is a server that counts the requests it has answered; a
    Retry-After value is read as a whole number of seconds. *)

Definition okResponse : Response :=
  {| StatusCode := 200; Header := ∅;
     Body := {| data := "ok"; readErr := None |} |}.

Definition serverError : Response :=
  {| StatusCode := 500; Header := ∅;
     Body := {| data := "internal_server_error"; readErr := None |} |}.

Definition rateLimited (body : string) : Response :=
  {| StatusCode := 429; Header := ∅;
     Body := {| data := body; readErr := None |} |}.

Definition rateLimitedHeader (retryAfter body : string) : Response :=
  {| StatusCode := 429; Header := {[ "Retry-After" := [retryAfter] ]};
     Body := {| data := body; readErr := None |} |}.

Definition unexpectedEOF : error := errorString "unexpected EOF".

Definition rateLimitedUnreadable : Response :=
  {| StatusCode := 429; Header := ∅;
     Body := {| data := EmptyString; readErr := Some unexpectedEOF |} |}.

(** The server answers its n-th request with [answer n]. *)
Definition server (answer : nat -> Response) : RoundTripper nat :=
  fun _ _ n => (Some (answer n), None, S n).

(** Answers for a server that rate-limits its first [k] requests. *)
Definition flaky (k : nat) (limited : Response) : nat -> Response :=
  fun n => if (n <? k)%nat then limited else okResponse.

Definition DeadlineExceeded : error := errorString "context deadline exceeded".

(** The same behind a transport that refuses a request whose context has
    expired, as net/http's transport does. *)
Definition ctxServer (answer : nat -> Response) : RoundTripper nat :=
  fun req tm n =>
    match deadline (ctx req) with
    | Some d =>
        if d <=? tm then (None, Some DeadlineExceeded, n)
        else (Some (answer n), None, S n)
    | None => (Some (answer n), None, S n)
    end.

Definition simParseFloat (s : string) : option Z :=
  match s with
  | EmptyString => None
  | _ => parse_digits 0 s
  end.

Definition simPlatform : Platform :=
  {| NetState := nat;
     DefaultTransport := server (fun _ => okResponse);
     float64 := Z;
     ParseFloat := simParseFloat;
     secondsToDuration := fun seconds => seconds * Second |}.

Definition world0 : @World simPlatform :=
  @Build_World simPlatform 0%nat 0 [].

Definition get (d : option Z) : Request :=
  {| Method := "GET"; URL := "https://api.modrinth.com/v2/project/sodium";
     ctx := {| deadline := d |} |}.

Definition transportOf (rt : RoundTripper nat) (maxRetries : Z)
    : @rateLimitTransport simPlatform :=
  @Build_rateLimitTransport simPlatform (Some rt) maxRetries.

(** ** Vocabulary of the further properties *)

Definition is_sleep (e : event) : bool :=
  match e with EvSleep _ => true | _ => false end.

Definition is_read (e : event) : bool :=
  match e with EvReadAll => true | _ => false end.

Definition is_close (e : event) : bool :=
  match e with EvClose => true | _ => false end.

Definition is_printf (e : event) : bool :=
  match e with EvPrintf _ _ _ => true | _ => false end.

(** Number of events of one kind in a log. *)
Fixpoint count_events (p : event -> bool) (l : list event) : Z :=
  match l with
  | [] => 0
  | e :: l' => (if p e then 1 else 0) + count_events p l'
  end.

(** Time spent in a list of sleeps. *)
Fixpoint elapsed (ds : list Z) : Z :=
  match ds with
  | [] => 0
  | d :: ds' => Z.max 0 d + elapsed ds'
  end.

(** The events of one call for [req] with retry ceiling [R], from attempt
    [a] on, when that attempt starts at time [tm]: passes that end in a
    sleep, each made of a dispatch, the reading and closing of the body, the
    progress line and the sleep, and then one last pass without sleep (or
    nothing at all when the loop is not entered). *)
Inductive call_log (req : Request) (R : Z) : Z -> Z -> list event -> Prop :=
| call_skipped a tm :
    R < a -> call_log req R a tm []
| call_returned a tm :
    a <= R ->
    call_log req R a tm [EvRoundTrip tm (Clone req (Request_Context req))]
| call_drained a tm :
    a <= R ->
    call_log req R a tm
      [EvRoundTrip tm (Clone req (Request_Context req)); EvReadAll; EvClose]
| call_retried a tm d rest :
    a < R ->
    call_log req R (a + 1) (tm + Z.max 0 d) rest ->
    call_log req R a tm
      (EvRoundTrip tm (Clone req (Request_Context req)) :: EvReadAll :: EvClose
         :: EvPrintf d (a + 1) R :: EvSleep d :: rest).

(** The delegate keeps the contract of http.RoundTripper: it returns a
    response or an error. *)
Definition abides `{Platform} (rt : RoundTripper NetState) : Prop :=
  forall req tm s, (rt req tm s).1.1 <> None \/ (rt req tm s).1.2 <> None.

(** The delegate answers the requests it receives from a script: the
    request received in state [s] gets the response [answers (counter s)],
    and the counter moves on by one. *)
Definition scripted `{Platform} (rt : RoundTripper NetState)
    (counter : NetState -> nat) (answers : nat -> Response) : Prop :=
  forall req tm s, exists s',
    rt req tm s = (Some (answers (counter s)), None, s') /\
    counter s' = S (counter s).

Definition rate_limits (r : Response) : Prop :=
  StatusCode r = StatusTooManyRequests /\ readErr (Body r) = None.

(** The waits slept for the [k] responses of the script from number [c] on,
    the first of them received at attempt [attempt]. *)
Fixpoint retryWaits `{Platform} (answers : nat -> Response) (c : nat)
    (attempt : Z) (k : nat) : list Z :=
  match k with
  | O => []
  | S k' =>
      bufferedWait (computedWait (answers c) (data (Body (answers c))) attempt)
        :: retryWaits answers (S c) (attempt + 1) k'
  end.

(** The byte [c] occurs in [s]. *)
Fixpoint str_In (c : ascii) (s : string) : Prop :=
  match s with
  | EmptyString => False
  | String c' s' => c' = c \/ str_In c s'
  end.

(** C10 as the specification states it, for one pass of the loop: a 429
    response with no phrase in its body and a Retry-After value that does
    not parse leads to no error of its own, and to the exponential wait of
    the attempt. *)
Definition header_fallback_as_stated `{Platform} (t : rateLimitTransport)
    (req : Request) (attempt : Z) (w : World) : Prop :=
  forall rt r s,
    Transport t = Some rt ->
    rt (Clone req (Request_Context req)) (now w) (net w) = (Some r, None, s) ->
    StatusCode r = StatusTooManyRequests ->
    FindStringSubmatch msPattern (data (Body r)) = [] ->
    FindStringSubmatch secPattern (data (Body r)) = [] ->
    Header_Get (Header r) "Retry-After" <> EmptyString ->
    ParseFloat (Header_Get (Header r) "Retry-After") = None ->
    let run := attemptOnce t req attempt w in
    (run.1 = Continue (Some r) None /\
     sleeps (log run.2)
       = sleeps (log w) ++ [bufferedWait (wrap64 (100 * Millisecond * 2 ^ attempt))]) \/
    run.1 = Done (Return (Some r) (Some (rateLimitExceeded (MaxRetries t)))).

(** A 429 response with an HTTP date in Retry-After whose body breaks off. *)
Definition rateLimitedDateUnreadable : Response :=
  {| StatusCode := 429;
     Header := {[ "Retry-After" := ["Wed, 21 Oct 2015 07:28:00 GMT"] ]};
     Body := {| data := EmptyString; readErr := Some unexpectedEOF |} |}.

(** * Properties *)

(** ** Strings *)

Lemma append_assoc (a b c : string) : (a +:+ b) +:+ c = a +:+ (b +:+ c).
Proof. induction a as [|x a IH]; simpl; [reflexivity | now rewrite IH]. Qed.

Lemma append_nil_r (a : string) : a +:+ EmptyString = a.
Proof. induction a as [|x a IH]; simpl; [reflexivity | now rewrite IH]. Qed.

Lemma strip_prefix_app (p s : string) : strip_prefix p (p +:+ s) = Some s.
Proof.
  induction p as [|a p IH]; simpl; [reflexivity|].
  now rewrite Ascii.eqb_refl.
Qed.

Lemma strip_prefix_Some (p s r : string) :
  strip_prefix p s = Some r -> s = p +:+ r.
Proof.
  revert s; induction p as [|a p IH]; intros s; simpl.
  - now intros [= ->].
  - destruct s as [|b s]; [discriminate|].
    destruct (Ascii.eqb a b) eqn:E; [|discriminate].
    apply Ascii.eqb_eq in E; subst b.
    intros Hs; now rewrite (IH _ Hs).
Qed.

Lemma all_digits_app (a b : string) :
  all_digits (a +:+ b) = all_digits a && all_digits b.
Proof.
  induction a as [|x a IH]; simpl; [reflexivity|].
  rewrite IH; now rewrite andb_assoc.
Qed.

(** ** The matcher *)

Lemma digits_greedy_no_digit {R} (k : string -> string -> option R) acc s :
  no_digit_head s = true -> digits_greedy k acc s = None.
Proof.
  destruct s as [|c s]; simpl; [reflexivity|].
  now destruct (is_digit c).
Qed.

Lemma digits_greedy_complete {R} (k : string -> string -> option R) ds :
  forall acc rest r,
    number ds -> no_digit_head rest = true ->
    k (acc +:+ ds) rest = Some r ->
    digits_greedy k acc (ds +:+ rest) = Some r.
Proof.
  induction ds as [|c ds IH]; intros acc rest r [Hd Hne] Hrest Hk.
  - now contradiction Hne.
  - simpl in Hd; apply andb_prop in Hd as [Hc Hds].
    simpl; rewrite Hc.
    destruct ds as [|c' ds'].
    + simpl. rewrite (digits_greedy_no_digit _ _ _ Hrest). exact Hk.
    + rewrite (IH (acc +:+ String c EmptyString) rest r); [reflexivity| |assumption|].
      * split; [assumption | discriminate].
      * now rewrite append_assoc.
Qed.

Lemma digits_greedy_sound {R} (k : string -> string -> option R) s :
  forall acc r,
    digits_greedy k acc s = Some r ->
    exists ds rest, s = ds +:+ rest /\ number ds /\ k (acc +:+ ds) rest = Some r.
Proof.
  induction s as [|c s IH]; intros acc r; simpl; [discriminate|].
  destruct (is_digit c) eqn:Hc; [|discriminate].
  destruct (digits_greedy k (acc +:+ String c EmptyString) s) as [r'|] eqn:Hg.
  - intros [= ->].
    destruct (IH _ _ Hg) as (ds & rest & -> & [Hd Hne] & Hk).
    exists (String c ds), rest; repeat split.
    + simpl; now rewrite Hc.
    + discriminate.
    + now rewrite append_assoc in Hk.
  - intros Hk. exists (String c EmptyString), s; repeat split.
    + simpl; now rewrite Hc.
    + discriminate.
    + exact Hk.
Qed.

Lemma exec_unit_sound unit cap s g rest :
  exec (unitPattern unit) cap s = Some (g, rest) ->
  exists post, number g /\ s = phrase g unit +:+ post.
Proof.
  unfold unitPattern; cbn [exec].
  destruct (strip_prefix "Please wait " s) as [s1|] eqn:Hp; [|discriminate].
  apply strip_prefix_Some in Hp; subst s.
  intros Hg. apply digits_greedy_sound in Hg as (ds & r1 & -> & Hn & Hk).
  cbn [exec String.append] in Hk.
  destruct (strip_prefix (String " " unit) r1) as [s2|] eqn:Hu; [|discriminate].
  apply strip_prefix_Some in Hu; subst r1.
  assert (g = ds) as ->.
  { destruct s2 as [|c s2]; [now inversion Hk|].
    destruct (Ascii.eqb "s" c); now inversion Hk. }
  exists s2; split; [assumption|].
  unfold phrase. rewrite !append_assoc. reflexivity.
Qed.

Lemma exec_unit_complete unit cap ds post :
  number ds ->
  exists rest, exec (unitPattern unit) cap (phrase ds unit +:+ post) = Some (ds, rest).
Proof.
  intros Hn. unfold unitPattern, phrase; cbn [exec].
  rewrite !append_assoc, strip_prefix_app.
  assert (exists rest,
    exec [Lit (" " +:+ unit); Opt "s"%char] ds ((" " +:+ unit) +:+ post)
      = Some (ds, rest)) as [rest Hrest].
  { cbn [exec]. rewrite strip_prefix_app.
    destruct post as [|c post]; [now eexists|].
    destruct (Ascii.eqb "s" c); now eexists. }
  exists rest.
  rewrite <- (append_assoc " " unit post).
  apply digits_greedy_complete; [assumption|reflexivity|exact Hrest].
Qed.

Lemma FindStringSubmatch_eq re s :
  FindStringSubmatch re s =
  match exec re EmptyString s with
  | Some (g, rest) => [str_take (String.length s - String.length rest) s; g]
  | None =>
      match s with
      | String _ s' => FindStringSubmatch re s'
      | EmptyString => []
      end
  end.
Proof. destruct s; reflexivity. Qed.

Lemma occurs_cons unit c pre ds post body :
  occurs unit pre ds post body ->
  occurs unit (String c pre) ds post (String c body).
Proof. intros [Hn ->]; split; [assumption | reflexivity]. Qed.

Lemma occurs_here unit cap s g rest :
  exec (unitPattern unit) cap s = Some (g, rest) ->
  exists post, occurs unit EmptyString g post s.
Proof.
  intros He. apply exec_unit_sound in He as (post & Hn & ->).
  exists post; split; [assumption | reflexivity].
Qed.

Lemma find_none unit body :
  ~ has_phrase unit body -> FindStringSubmatch (unitPattern unit) body = [].
Proof.
  induction body as [|c body IH]; intros Hno; rewrite FindStringSubmatch_eq.
  - destruct (exec _ _ _) as [[g rest]|] eqn:He; [|reflexivity].
    apply occurs_here in He as [post Ho]. exfalso; apply Hno. now exists EmptyString, g, post.
  - destruct (exec _ _ _) as [[g rest]|] eqn:He.
    + apply occurs_here in He as [post Ho]. exfalso; apply Hno. now exists EmptyString, g, post.
    + apply IH. intros (pre & ds & post & Ho). apply Hno.
      exists (String c pre), ds, post. now apply occurs_cons.
Qed.

Lemma find_some unit body :
  has_phrase unit body -> FindStringSubmatch (unitPattern unit) body <> [].
Proof.
  intros (pre & ds & post & Hn & ->).
  induction pre as [|c pre IH]; rewrite FindStringSubmatch_eq; cbn [String.append].
  - destruct (exec_unit_complete unit EmptyString ds post Hn) as [rest ->]. discriminate.
  - destruct (exec _ _ _) as [[g rest]|]; [discriminate | exact IH].
Qed.

Lemma find_first unit body ds :
  first_phrase unit body ds ->
  exists whole, FindStringSubmatch (unitPattern unit) body = [whole; ds].
Proof.
  intros (pre & post & [Hn ->] & Hmin).
  induction pre as [|c pre IH]; rewrite FindStringSubmatch_eq; cbn [String.append].
  - destruct (exec_unit_complete unit EmptyString ds post Hn) as [rest ->]. now eexists.
  - destruct (exec _ _ _) as [[g rest]|] eqn:He.
    + apply occurs_here in He as [post' Ho].
      apply Hmin in Ho. simpl in Ho. lia.
    + apply IH. intros pre' ds' post' Ho.
      apply (occurs_cons unit c) in Ho. apply Hmin in Ho. simpl in Ho. lia.
Qed.

(** ** ParseInt and durations *)

Lemma wrap64_small z : minInt64 <= z <= maxInt64 -> wrap64 z = z.
Proof.
  unfold wrap64, minInt64, maxInt64. intros Hz.
  rewrite Z.mod_small; lia.
Qed.

Lemma digit_val_range c : is_digit c = true -> 0 <= digit_val c <= 9.
Proof. unfold is_digit, digit_val. lia. Qed.

Lemma decimal_from_ge acc ds :
  all_digits ds = true -> 0 <= acc -> acc <= decimal_from acc ds.
Proof.
  revert acc; induction ds as [|c ds IH]; intros acc Hd Hacc; simpl; [lia|].
  simpl in Hd. apply andb_prop in Hd as [Hc Hds].
  apply digit_val_range in Hc.
  etransitivity; [|apply IH]; [lia|assumption|lia].
Qed.

Lemma parse_digits_all acc ds :
  all_digits ds = true -> parse_digits acc ds = Some (decimal_from acc ds).
Proof.
  revert acc; induction ds as [|c ds IH]; intros acc Hd; simpl; [reflexivity|].
  simpl in Hd. apply andb_prop in Hd as [Hc Hds].
  rewrite Hc. now apply IH.
Qed.

Lemma ParseInt_number ds :
  number ds -> decimal ds <= maxInt64 -> ParseInt ds = Some (decimal ds).
Proof.
  intros [Hd Hne] Hmax. destruct ds as [|c ds]; [now contradiction Hne|].
  unfold ParseInt.
  assert (Ascii.eqb c "+" = false) as ->.
  { destruct (Ascii.eqb_spec c "+"%char) as [->|]; [discriminate Hd | reflexivity]. }
  assert (Ascii.eqb c "-" = false) as ->.
  { destruct (Ascii.eqb_spec c "-"%char) as [->|]; [discriminate Hd | reflexivity]. }
  rewrite (parse_digits_all 0 _ Hd). fold (decimal (String c ds)).
  unfold maxInt64 in Hmax.
  replace (2 ^ 63 <=? decimal (String c ds)) with false by lia.
  reflexivity.
Qed.

Lemma extract_first_ms body ds :
  first_phrase "millisecond" body ds -> decimal ds <= maxInt64 ->
  extractWaitTime body = mul64 (decimal ds) Millisecond.
Proof.
  intros Hf Hmax. destruct (find_first _ _ _ Hf) as [whole Hw].
  destruct Hf as (pre & post & [Hn _] & _).
  unfold extractWaitTime, extract_patterns.
  change msPattern with (unitPattern "millisecond"). rewrite Hw. simpl.
  now rewrite (ParseInt_number _ Hn Hmax).
Qed.

Lemma extract_first_sec body ds :
  ~ has_phrase "millisecond" body ->
  first_phrase "second" body ds -> decimal ds <= maxInt64 ->
  extractWaitTime body = mul64 (decimal ds) Second.
Proof.
  intros Hno Hf Hmax. destruct (find_first _ _ _ Hf) as [whole Hw].
  destruct Hf as (pre & post & [Hn _] & _).
  unfold extractWaitTime, extract_patterns.
  change msPattern with (unitPattern "millisecond").
  change secPattern with (unitPattern "second").
  rewrite (find_none _ _ Hno), Hw. simpl.
  now rewrite (ParseInt_number _ Hn Hmax).
Qed.

Lemma extract_none body :
  FindStringSubmatch msPattern body = [] ->
  FindStringSubmatch secPattern body = [] ->
  extractWaitTime body = 0.
Proof.
  intros Hms Hsec. unfold extractWaitTime, extract_patterns.
  now rewrite Hms, Hsec.
Qed.

(** C3 (as amended).  [extractWaitTime] returns exactly N milliseconds when
    the leftmost phrase "Please wait N millisecond" (an "s" may follow) of the
    body has N milliseconds within the range of time.Duration; exactly N
    seconds when the body has no millisecond phrase and its leftmost phrase
    "Please wait N second" has N seconds within that range; and zero when
    the body has neither phrase. *)
Theorem C3_extractWaitTime (body : string) :
  (forall ds, first_phrase "millisecond" body ds ->
     decimal ds * Millisecond <= maxInt64 ->
     extractWaitTime body = decimal ds * Millisecond) /\
  (forall ds, ~ has_phrase "millisecond" body ->
     first_phrase "second" body ds ->
     decimal ds * Second <= maxInt64 ->
     extractWaitTime body = decimal ds * Second) /\
  (~ has_phrase "millisecond" body -> ~ has_phrase "second" body ->
     extractWaitTime body = 0).
Proof.
  assert (forall ds, number ds -> 0 <= decimal ds) as Hpos.
  { intros ds [Hd _]. now apply (decimal_from_ge 0 ds Hd). }
  split; [|split].
  - intros ds Hf Hmax.
    assert (0 <= decimal ds) by (destruct Hf as (? & ? & [? _] & _); auto).
    rewrite (extract_first_ms body ds Hf); unfold Millisecond, maxInt64 in *; [|lia].
    apply wrap64_small; unfold minInt64, maxInt64; lia.
  - intros ds Hno Hf Hmax.
    assert (0 <= decimal ds) by (destruct Hf as (? & ? & [? _] & _); auto).
    rewrite (extract_first_sec body ds Hno Hf); unfold Second, maxInt64 in *; [|lia].
    apply wrap64_small; unfold minInt64, maxInt64; lia.
  - intros Hms Hsec. apply extract_none.
    + exact (find_none "millisecond" body Hms).
    + exact (find_none "second" body Hsec).
Qed.

Lemma no_phrase_of_find unit body :
  FindStringSubmatch (unitPattern unit) body = [] -> ~ has_phrase unit body.
Proof. intros Hf Hp. now apply (find_some unit body Hp). Qed.

Lemma first_of_find unit body whole ds :
  FindStringSubmatch (unitPattern unit) body = [whole; ds] ->
  first_phrase unit body ds.
Proof.
  revert whole; induction body as [|c body IH]; intros whole;
    rewrite FindStringSubmatch_eq;
    destruct (exec _ _ _) as [[g rest]|] eqn:He; try discriminate.
  - intros [= _ ->]. apply occurs_here in He as [post Ho].
    exists EmptyString, post; split; [assumption | simpl; lia].
  - intros Hf. destruct (IH _ Hf) as (pre & post & Ho & Hmin).
    exists (String c pre), post; split; [now apply occurs_cons|].
    intros [|c' pre'] ds' post' [Hn' Hb]; cbn [String.append] in Hb.
    + destruct (exec_unit_complete unit EmptyString ds' post' Hn') as [r Hr].
      rewrite <- Hb in Hr. congruence.
    + injection Hb as -> Hb. simpl.
      assert (occurs unit pre' ds' post' body) as Ho' by now split.
      apply Hmin in Ho'. lia.
Qed.

(** C3, witness: the bodies of the test suite. *)
Lemma C3_extractWaitTime_witness :
  (first_phrase "millisecond"
     "You are being rate-limited. Please wait 500 milliseconds. 0/300 remaining." "500" /\
   extractWaitTime
     "You are being rate-limited. Please wait 500 milliseconds. 0/300 remaining."
     = 500 * Millisecond) /\
  (first_phrase "second"
     "You are being rate-limited. Please wait 2 seconds. 0/300 remaining." "2" /\
   extractWaitTime
     "You are being rate-limited. Please wait 2 seconds. 0/300 remaining."
     = 2 * Second) /\
  (~ has_phrase "millisecond" "Rate limited" /\
   ~ has_phrase "second" "Rate limited" /\
   extractWaitTime "Rate limited" = 0).
Proof.
  assert (first_phrase "millisecond"
    "You are being rate-limited. Please wait 500 milliseconds. 0/300 remaining." "500") as H1.
  { eapply first_of_find. vm_compute. reflexivity. }
  assert (first_phrase "second"
    "You are being rate-limited. Please wait 2 seconds. 0/300 remaining." "2") as H2.
  { eapply first_of_find. vm_compute. reflexivity. }
  assert (~ has_phrase "millisecond"
    "You are being rate-limited. Please wait 2 seconds. 0/300 remaining.") as H3.
  { apply no_phrase_of_find. vm_compute. reflexivity. }
  assert (~ has_phrase "millisecond" "Rate limited") as H4.
  { apply no_phrase_of_find. vm_compute. reflexivity. }
  assert (~ has_phrase "second" "Rate limited") as H5.
  { apply no_phrase_of_find. vm_compute. reflexivity. }
  split; [split; [exact H1|] | split; [split; [exact H2|] | split; [exact H4 | split; [exact H5|]]]].
  - apply (proj1 (C3_extractWaitTime _) "500" H1). vm_compute. discriminate.
  - apply (proj1 (proj2 (C3_extractWaitTime _)) "2" H3 H2). vm_compute. discriminate.
  - apply (proj2 (proj2 (C3_extractWaitTime _)) H4 H5).
Defined.

Lemma occurs_intro unit pre ds post body :
  all_digits ds = true -> ds <> EmptyString ->
  body = pre +:+ phrase ds unit +:+ post -> occurs unit pre ds post body.
Proof. intros; repeat split; assumption. Qed.

(** C3, counterexample.  The property as stated fails on a body that holds a
    seconds phrase before a milliseconds phrase (the milliseconds pattern is
    tried first), on a body with two milliseconds phrases (the leftmost one
    is taken), on numbers outside the range of int64 or of time.Duration, and
    on the phrase without its final "s" (which is recognized). *)
Lemma C3_extraction_counterexample :
  ~ extraction_as_stated "Please wait 5 seconds. Please wait 7 milliseconds." /\
  ~ extraction_as_stated "Please wait 3 milliseconds. Please wait 9 milliseconds." /\
  ~ extraction_as_stated "Please wait 9223372036854775808 milliseconds" /\
  ~ extraction_as_stated "Please wait 9223372036855 milliseconds" /\
  ~ extraction_as_stated "Please wait 5 second".
Proof.
  split; [|split; [|split; [|split]]].
  - intros (_ & Hsec & _).
    assert (occurs "seconds" EmptyString "5" ". Please wait 7 milliseconds."
              "Please wait 5 seconds. Please wait 7 milliseconds.") as Ho
      by (apply occurs_intro; [reflexivity | discriminate | reflexivity]).
    apply Hsec in Ho. vm_compute in Ho. discriminate Ho.
  - intros (Hms & _ & _).
    assert (occurs "milliseconds" "Please wait 3 milliseconds. " "9" "."
              "Please wait 3 milliseconds. Please wait 9 milliseconds.") as Ho
      by (apply occurs_intro; [reflexivity | discriminate | reflexivity]).
    apply Hms in Ho. vm_compute in Ho. discriminate Ho.
  - intros (Hms & _ & _).
    assert (occurs "milliseconds" EmptyString "9223372036854775808" EmptyString
              "Please wait 9223372036854775808 milliseconds") as Ho
      by (apply occurs_intro; [reflexivity | discriminate | reflexivity]).
    apply Hms in Ho. vm_compute in Ho. discriminate Ho.
  - intros (Hms & _ & _).
    assert (occurs "milliseconds" EmptyString "9223372036855" EmptyString
              "Please wait 9223372036855 milliseconds") as Ho
      by (apply occurs_intro; [reflexivity | discriminate | reflexivity]).
    apply Hms in Ho. vm_compute in Ho. discriminate Ho.
  - intros (_ & _ & Hnone).
    assert (extractWaitTime "Please wait 5 second" = 0) as H0.
    { apply Hnone; apply no_phrase_of_find; vm_compute; reflexivity. }
    vm_compute in H0. discriminate H0.
Qed.

(** ** Arithmetic of time.Duration *)

Lemma wrap64_range z : minInt64 <= wrap64 z <= maxInt64.
Proof.
  unfold wrap64, minInt64, maxInt64.
  pose proof (Z.mod_pos_bound (z + 2 ^ 63) (2 ^ 64) ltac:(lia)). lia.
Qed.

Lemma wrap64_add_l x y : wrap64 (wrap64 x + y) = wrap64 (x + y).
Proof.
  unfold wrap64. f_equal.
  replace ((x + 2 ^ 63) mod 2 ^ 64 - 2 ^ 63 + y + 2 ^ 63)
    with ((x + 2 ^ 63) mod 2 ^ 64 + y) by lia.
  rewrite Z.add_mod_idemp_l by lia. f_equal; lia.
Qed.

Lemma fallbackWait_small i :
  0 <= i <= 36 -> fallbackWait i = 100 * Millisecond * 2 ^ i.
Proof.
  intros Hi. unfold fallbackWait, mul64, shl64, Millisecond.
  rewrite Z.shiftl_mul_pow2 by lia.
  assert (1 <= 2 ^ i <= 2 ^ 36) as Hp.
  { split; [apply (Z.pow_le_mono_r 2 0 i); lia | apply Z.pow_le_mono_r; lia]. }
  change (2 ^ 36) with 68719476736 in Hp.
  rewrite (wrap64_small (1 * 2 ^ i)) by (unfold minInt64, maxInt64; lia).
  rewrite (wrap64_small (100 * _)) by (unfold minInt64, maxInt64; lia).
  rewrite wrap64_small by (unfold minInt64, maxInt64; lia). lia.
Qed.

Lemma fallbackWait_increasing i :
  0 <= i < 36 -> fallbackWait i < fallbackWait (i + 1).
Proof.
  intros Hi. rewrite !fallbackWait_small by lia.
  rewrite Z.pow_add_r by lia. unfold Millisecond.
  assert (0 < 2 ^ i) by (apply Z.pow_pos_nonneg; lia). lia.
Qed.

Lemma bufferedWait_eq w :
  minInt64 <= w <= maxInt64 ->
  bufferedWait w = wrap64 (w + Z.quot w 10 + 50 * Millisecond).
Proof.
  intros Hw. unfold bufferedWait, add64, quot64, mul64.
  assert (minInt64 <= Z.quot w 10 <= maxInt64) as Hq.
  { unfold minInt64, maxInt64 in *.
    destruct (Z.le_gt_cases 0 w) as [Hpos|Hneg].
    - pose proof (Z.quot_pos w 10 Hpos ltac:(lia)).
      pose proof (Z.quot_le_upper_bound w 10 w ltac:(lia) ltac:(lia)). lia.
    - pose proof (Z.quot_opp_l w 10 ltac:(lia)) as Ho.
      pose proof (Z.quot_pos (- w) 10 ltac:(lia) ltac:(lia)).
      pose proof (Z.quot_le_upper_bound (- w) 10 (- w) ltac:(lia) ltac:(lia)). lia. }
  rewrite (wrap64_small (Z.quot w 10)) by assumption.
  rewrite (wrap64_small (50 * Millisecond)) by (unfold minInt64, maxInt64, Millisecond; lia).
  apply wrap64_add_l.
Qed.

Lemma bufferedWait_in_range w :
  minInt64 <= w <= maxInt64 ->
  minInt64 <= w + Z.quot w 10 + 50 * Millisecond <= maxInt64 ->
  bufferedWait w = w + Z.quot w 10 + 50 * Millisecond.
Proof. intros Hw Hb. rewrite bufferedWait_eq by assumption. now apply wrap64_small. Qed.

Lemma extractWaitTime_range body :
  minInt64 <= extractWaitTime body <= maxInt64.
Proof.
  unfold extractWaitTime, extract_patterns.
  repeat match goal with
  | |- context [if ?b then _ else _] => destruct b
  | |- context [match ?o with Some _ => _ | None => _ end] => destruct o
  end; try apply wrap64_range; unfold minInt64, maxInt64; lia.
Qed.

Lemma wrap64_mul_l x y : wrap64 (wrap64 x * y) = wrap64 (x * y).
Proof.
  unfold wrap64. f_equal.
  rewrite (Z.mod_eq (x + 2 ^ 63) (2 ^ 64)) by lia.
  set (q := (x + 2 ^ 63) / 2 ^ 64).
  replace ((x + 2 ^ 63 - 2 ^ 64 * q - 2 ^ 63) * y + 2 ^ 63)
    with (x * y + 2 ^ 63 + (- q * y) * 2 ^ 64) by ring.
  apply Z_mod_plus_full.
Qed.

Lemma wrap64_mul_r x y : wrap64 (x * wrap64 y) = wrap64 (x * y).
Proof. rewrite (Z.mul_comm x (wrap64 y)), wrap64_mul_l. f_equal; ring. Qed.

Lemma fallbackWait_wrap i :
  0 <= i -> fallbackWait i = wrap64 (100 * Millisecond * 2 ^ i).
Proof.
  intros Hi. unfold fallbackWait, mul64, shl64.
  rewrite Z.shiftl_mul_pow2 by lia.
  rewrite wrap64_mul_l.
  replace (100 * wrap64 (1 * 2 ^ i) * Millisecond)
    with (100 * Millisecond * wrap64 (1 * 2 ^ i)) by ring.
  rewrite wrap64_mul_r. f_equal. ring.
Qed.

(** ** The loop of RoundTrip *)

Section Transport.
Context `{P : Platform}.

Implicit Types (t : rateLimitTransport) (req : Request) (w : World).

Lemma dispatches_app l l' : dispatches (l ++ l') = dispatches l + dispatches l'.
Proof. induction l as [|e l IH]; simpl; [reflexivity | rewrite IH; lia]. Qed.

Lemma dispatches_dispatched w s req :
  dispatches (log (dispatched w s req)) = dispatches (log w) + 1.
Proof. unfold dispatched; simpl. now rewrite dispatches_app. Qed.

Lemma dispatches_drained w : dispatches (log (drained w)) = dispatches (log w).
Proof. unfold drained, emit; simpl. rewrite !dispatches_app; simpl; lia. Qed.

Lemma dispatches_waited d a m w :
  dispatches (log (waited d a m w)) = dispatches (log w).
Proof. unfold waited, Sleep, emit; simpl. rewrite !dispatches_app; simpl; lia. Qed.

Lemma Transport_applyDefaults t :
  Transport (applyDefaults t) = Some (delegate t).
Proof.
  unfold applyDefaults, delegate.
  destruct (Transport t) eqn:HT; simpl;
    destruct (_ =? 0); simpl; now rewrite ?HT.
Qed.

Lemma MaxRetries_applyDefaults t :
  MaxRetries (applyDefaults t) = if MaxRetries t =? 0 then 5 else MaxRetries t.
Proof.
  unfold applyDefaults.
  destruct (Transport t); simpl; destruct (MaxRetries t =? 0); reflexivity.
Qed.

(** One pass of the loop, by what the delegate answers. *)

Lemma attemptOnce_error t req attempt w rt resp e s :
  Transport t = Some rt ->
  rt (Clone req (Request_Context req)) (now w) (net w) = (resp, Some e, s) ->
  attemptOnce t req attempt w
    = (Done (Return resp (Some e)), dispatched w s req).
Proof. intros HT Hrt. unfold attemptOnce, dispatch. now rewrite HT, Hrt. Qed.

Lemma attemptOnce_pass t req attempt w rt r s :
  Transport t = Some rt ->
  rt (Clone req (Request_Context req)) (now w) (net w) = (Some r, None, s) ->
  StatusCode r <> StatusTooManyRequests ->
  attemptOnce t req attempt w
    = (Done (Return (Some r) None), dispatched w s req).
Proof.
  intros HT Hrt Hcode. unfold attemptOnce, dispatch. rewrite HT, Hrt.
  apply Z.eqb_neq in Hcode. now rewrite Hcode.
Qed.

Lemma attemptOnce_unreadable t req attempt w rt r s e :
  Transport t = Some rt ->
  rt (Clone req (Request_Context req)) (now w) (net w) = (Some r, None, s) ->
  StatusCode r = StatusTooManyRequests ->
  readErr (Body r) = Some e ->
  attemptOnce t req attempt w
    = (Done (Return (Some r) (Some (readFailed e))),
       drained (dispatched w s req)).
Proof.
  intros HT Hrt Hcode He. unfold attemptOnce, dispatch. rewrite HT, Hrt.
  apply Z.eqb_eq in Hcode. rewrite Hcode. unfold ReadAll. now rewrite He.
Qed.

Lemma attemptOnce_retry t req attempt w rt r s :
  Transport t = Some rt ->
  rt (Clone req (Request_Context req)) (now w) (net w) = (Some r, None, s) ->
  StatusCode r = StatusTooManyRequests ->
  readErr (Body r) = None ->
  attempt < MaxRetries t ->
  attemptOnce t req attempt w
    = (Continue (Some r) None,
       waited (bufferedWait (computedWait r (data (Body r)) attempt))
         attempt (MaxRetries t) (drained (dispatched w s req))).
Proof.
  intros HT Hrt Hcode He Hlt. unfold attemptOnce, dispatch. rewrite HT, Hrt.
  apply Z.eqb_eq in Hcode. rewrite Hcode. unfold ReadAll. rewrite He.
  apply Z.ltb_lt in Hlt. now rewrite Hlt.
Qed.

Lemma attemptOnce_exhausted t req attempt w rt r s :
  Transport t = Some rt ->
  rt (Clone req (Request_Context req)) (now w) (net w) = (Some r, None, s) ->
  StatusCode r = StatusTooManyRequests ->
  readErr (Body r) = None ->
  MaxRetries t <= attempt ->
  attemptOnce t req attempt w
    = (Done (Return (Some r) (Some (rateLimitExceeded (MaxRetries t)))),
       drained (dispatched w s req)).
Proof.
  intros HT Hrt Hcode He Hge. unfold attemptOnce, dispatch. rewrite HT, Hrt.
  apply Z.eqb_eq in Hcode. rewrite Hcode. unfold ReadAll. rewrite He.
  apply Z.ltb_ge in Hge. now rewrite Hge.
Qed.

Lemma retryLoop_step fuel t req attempt resp err w :
  attempt <= MaxRetries t ->
  retryLoop (S fuel) t req attempt resp err w =
  match attemptOnce t req attempt w with
  | (Done r, w') => (r, w')
  | (Continue resp' err', w') => retryLoop fuel t req (attempt + 1) resp' err' w'
  end.
Proof. intros Hle. apply Z.leb_le in Hle. simpl. now rewrite Hle. Qed.

Lemma retryLoop_exit fuel t req attempt resp err w :
  MaxRetries t < attempt ->
  retryLoop fuel t req attempt resp err w = (Return resp err, w).
Proof. intros Hlt. apply Z.leb_gt in Hlt. destruct fuel; simpl; now rewrite Hlt. Qed.

(** A delegate that answers 429 to everything: the loop runs to the last
    attempt and ends with the exhaustion error. *)
Lemma retryLoop_always_429 t req rt :
  Transport t = Some rt -> always_429_readable rt ->
  forall k fuel attempt resp err w,
    MaxRetries t - attempt = Z.of_nat k -> (k < fuel)%nat ->
    exists r w',
      retryLoop fuel t req attempt resp err w
        = (Return (Some r) (Some (rateLimitExceeded (MaxRetries t))), w') /\
      StatusCode r = StatusTooManyRequests /\
      dispatches (log w') = dispatches (log w) + Z.of_nat k + 1.
Proof.
  intros HT Hall. induction k as [|k IH]; intros fuel attempt resp err w Hk Hfuel;
    (destruct fuel as [|fuel]; [lia|]);
    destruct (Hall (Clone req (Request_Context req)) (now w) (net w))
      as (r & s & Hrt & Hcode & Hread);
    rewrite retryLoop_step by lia.
  - rewrite (attemptOnce_exhausted _ _ _ _ _ _ _ HT Hrt Hcode Hread) by lia.
    exists r, (drained (dispatched w s req)); repeat split; [assumption|].
    rewrite dispatches_drained, dispatches_dispatched. lia.
  - rewrite (attemptOnce_retry _ _ _ _ _ _ _ HT Hrt Hcode Hread) by lia.
    edestruct (IH fuel (attempt + 1) (Some r) None) as (r' & w' & -> & Hc' & Hd');
      [lia | lia |].
    exists r', w'; repeat split; [assumption|].
    rewrite Hd', dispatches_waited, dispatches_drained, dispatches_dispatched. lia.
Qed.

Lemma retryLoop_pass fuel t req attempt resp err w rt r s :
  Transport t = Some rt ->
  rt (Clone req (Request_Context req)) (now w) (net w) = (Some r, None, s) ->
  StatusCode r <> StatusTooManyRequests ->
  attempt <= MaxRetries t ->
  retryLoop (S fuel) t req attempt resp err w
    = (Return (Some r) None, dispatched w s req).
Proof.
  intros HT Hrt Hcode Hle. rewrite retryLoop_step by assumption.
  now rewrite (attemptOnce_pass _ _ _ _ _ _ _ HT Hrt Hcode).
Qed.

Lemma RoundTrip_eq t req w :
  RoundTrip t req w =
  (let t' := applyDefaults t in
   let lw := retryLoop (Z.to_nat (MaxRetries t' + 1)) t' req 0 None None w in
   (lw.1, t', lw.2)).
Proof. unfold RoundTrip. simpl. now destruct (retryLoop _ _ _ _ _ _ _). Qed.

Lemma RoundTrip_receiver t req w : (RoundTrip t req w).1.2 = applyDefaults t.
Proof. now rewrite RoundTrip_eq. Qed.

Lemma applyDefaults_idem t : applyDefaults (applyDefaults t) = applyDefaults t.
Proof.
  destruct t as [tr m]. unfold applyDefaults; simpl.
  destruct tr; simpl; destruct (m =? 0) eqn:Hm; simpl; rewrite ?Hm; reflexivity.
Qed.

Lemma retryLoop_settled t req rt :
  Transport t = Some rt -> dispatch_ok rt ->
  forall k fuel attempt resp err w,
    MaxRetries t - attempt = Z.of_nat k -> (k < fuel)%nat ->
    settled (MaxRetries t) (retryLoop fuel t req attempt resp err w).1.
Proof.
  intros HT Hok. induction k as [|k IH]; intros fuel attempt resp err w Hk Hfuel;
    (destruct fuel as [|fuel]; [lia|]);
    destruct (Hok (Clone req (Request_Context req)) (now w) (net w))
      as (r & s & Hrt);
    rewrite retryLoop_step by lia;
    (destruct (decide (StatusCode r = StatusTooManyRequests)) as [Hcode|Hcode];
      [|rewrite (attemptOnce_pass _ _ _ _ _ _ _ HT Hrt Hcode);
        now apply settled_response]);
    (destruct (readErr (Body r)) as [e|] eqn:Hread;
      [rewrite (attemptOnce_unreadable _ _ _ _ _ _ _ _ HT Hrt Hcode Hread);
       now apply settled_unreadable|]).
  - rewrite (attemptOnce_exhausted _ _ _ _ _ _ _ HT Hrt Hcode Hread) by lia.
    now apply settled_exhausted.
  - rewrite (attemptOnce_retry _ _ _ _ _ _ _ HT Hrt Hcode Hread) by lia.
    apply IH; lia.
Qed.

(** The log only grows, and a pass of the loop starts with a dispatch. *)
Lemma attemptOnce_log t req attempt w rt :
  Transport t = Some rt ->
  exists evs,
    log (attemptOnce t req attempt w).2
      = log w ++ EvRoundTrip (now w) (Clone req (Request_Context req)) :: evs.
Proof.
  intros HT. unfold attemptOnce, dispatch. rewrite HT.
  destruct (rt _ _ _) as [[resp err] s].
  destruct err as [e|]; [exists []; reflexivity|].
  destruct resp as [r|]; [|exists []; reflexivity].
  destruct (StatusCode r =? StatusTooManyRequests); [|exists []; reflexivity].
  unfold ReadAll. destruct (readErr (Body r)).
  { eexists; simpl. rewrite <- !app_assoc. reflexivity. }
  destruct (attempt <? MaxRetries t).
  - eexists; simpl. rewrite <- !app_assoc. reflexivity.
  - eexists; simpl. rewrite <- !app_assoc. reflexivity.
Qed.

Lemma retryLoop_log fuel t req rt :
  Transport t = Some rt ->
  forall attempt resp err w,
    exists evs, log (retryLoop fuel t req attempt resp err w).2 = log w ++ evs.
Proof.
  intros HT. induction fuel as [|fuel IH]; intros attempt resp err w; simpl;
    destruct (attempt <=? MaxRetries t); try (exists []; now rewrite app_nil_r).
  destruct (attemptOnce_log t req attempt w rt HT) as [evs Hevs].
  destruct (attemptOnce t req attempt w) as [[r|resp' err'] w1]; simpl in *.
  - eexists; exact Hevs.
  - destruct (IH (attempt + 1) resp' err' w1) as [evs' ->].
    rewrite Hevs, <- app_assoc. eexists; reflexivity.
Qed.

(** The fuel [RoundTrip] gives the loop is enough: the call always ends in a
    return or a panic of the Go code. *)
Lemma attemptOnce_in_fuel t req attempt w :
  (attemptOnce t req attempt w).1 <> Done OutOfFuel.
Proof.
  unfold attemptOnce, dispatch. destruct (Transport t) as [rt|]; [|discriminate].
  destruct (rt _ _ _) as [[resp err] s].
  destruct err; [discriminate|]. destruct resp as [r|]; [|discriminate].
  destruct (StatusCode r =? StatusTooManyRequests); [|discriminate].
  unfold ReadAll. destruct (readErr (Body r)); [discriminate|].
  destruct (attempt <? MaxRetries t); discriminate.
Qed.

Lemma retryLoop_in_fuel fuel t req :
  forall attempt resp err w,
    (Z.to_nat (MaxRetries t + 1 - attempt) <= fuel)%nat ->
    (retryLoop fuel t req attempt resp err w).1 <> OutOfFuel.
Proof.
  induction fuel as [|fuel IH]; intros attempt resp err w Hfuel; simpl;
    destruct (attempt <=? MaxRetries t) eqn:Hle; try discriminate.
  - apply Z.leb_le in Hle. lia.
  - apply Z.leb_le in Hle.
    pose proof (attemptOnce_in_fuel t req attempt w) as Hne.
    destruct (attemptOnce t req attempt w) as [[r|resp' err'] w1]; simpl in *.
    + intros ->. now apply Hne.
    + apply IH. lia.
Qed.

Lemma RoundTrip_in_fuel t req w : (RoundTrip t req w).1.1 <> OutOfFuel.
Proof.
  rewrite RoundTrip_eq. cbv zeta. cbn [fst snd].
  apply retryLoop_in_fuel. rewrite Z.sub_0_r. lia.
Qed.

End Transport.

(** ** The claims about RoundTrip *)

Section Claims.
Context `{P : Platform}.

Implicit Types (t : rateLimitTransport) (req : Request) (w : World).

Lemma computedWait_range r bodyStr attempt :
  minInt64 <= computedWait r bodyStr attempt <= maxInt64.
Proof.
  unfold computedWait, hintedWait, fallbackWait, mul64.
  pose proof (extractWaitTime_range bodyStr).
  repeat match goal with
  | |- context [if ?b then _ else _] => destruct b
  | |- context [match ?o with Some _ => _ | None => _ end] => destruct o
  end; try apply wrap64_range; assumption.
Qed.

Lemma newRateLimitHTTPClient_MaxRetries :
  MaxRetries (Client_Transport newRateLimitHTTPClient) = 100.
Proof. reflexivity. Qed.

(** C1 (as amended).  With MaxRetries unset (zero) RoundTrip runs with a
    retry ceiling of 5, whatever the Transport field holds; the client built
    by newRateLimitHTTPClient sets MaxRetries to a non-zero value, which
    RoundTrip takes as the ceiling in place of the default. *)
Theorem C1_retry_ceilings :
  (forall tr req w,
     ceiling {| Transport := tr; MaxRetries := 0 |} = 5 /\
     MaxRetries (RoundTrip {| Transport := tr; MaxRetries := 0 |} req w).1.2 = 5) /\
  MaxRetries (Client_Transport newRateLimitHTTPClient) <> 0 /\
  ceiling (Client_Transport newRateLimitHTTPClient)
    = MaxRetries (Client_Transport newRateLimitHTTPClient).
Proof.
  split; [|split].
  - intros tr req w. rewrite RoundTrip_receiver. unfold ceiling.
    rewrite MaxRetries_applyDefaults. simpl. split; reflexivity.
  - simpl. discriminate.
  - reflexivity.
Qed.

Lemma exhaustion_text_Contains R :
  Contains (Error (rateLimitExceeded R)) (exhaustion_text R).
Proof.
  exists EmptyString. eexists. unfold rateLimitExceeded, exhaustion_text. simpl.
  rewrite !append_assoc. reflexivity.
Qed.

(** C2 (as amended).  When the delegate answers every attempt with a 429
    response whose body can be read and MaxRetries is not negative,
    RoundTrip makes exactly R+1 dispatches, R being the ceiling it runs with
    (MaxRetries, or 5 when MaxRetries is 0), and returns the error whose text
    contains "rate limit exceeded after R retries", together with the last
    429 response. *)
Theorem C2_exhaustion t req w :
  always_429_readable (delegate t) -> 0 <= MaxRetries t ->
  exists r w',
    RoundTrip t req w
      = (Return (Some r) (Some (rateLimitExceeded (ceiling t))),
         applyDefaults t, w') /\
    StatusCode r = StatusTooManyRequests /\
    dispatches (log w') - dispatches (log w) = ceiling t + 1 /\
    Contains (Error (rateLimitExceeded (ceiling t))) (exhaustion_text (ceiling t)) /\
    ceiling t = (if MaxRetries t =? 0 then 5 else MaxRetries t).
Proof.
  intros Hall Hpos.
  assert (0 <= ceiling t) as Hc.
  { unfold ceiling. rewrite MaxRetries_applyDefaults.
    destruct (MaxRetries t =? 0); lia. }
  destruct (retryLoop_always_429 (applyDefaults t) req (delegate t)
              (Transport_applyDefaults t) Hall
              (Z.to_nat (ceiling t)) (Z.to_nat (ceiling t + 1)) 0 None None w)
    as (r & w' & Hloop & Hcode & Hd).
  { fold (ceiling t). lia. }
  { lia. }
  exists r, w'. rewrite RoundTrip_eq. cbv zeta. fold (ceiling t).
  rewrite Hloop. cbn [fst snd].
  repeat split; try assumption.
  - lia.
  - apply exhaustion_text_Contains.
  - unfold ceiling. apply MaxRetries_applyDefaults.
Qed.

(** C4 (as amended).  For a 429 response with no recognized phrase in the
    body and no parseable Retry-After header, on the attempts 0..36 (those
    for which 100 ms * 2^i fits time.Duration) the wait before buffering is
    100 ms * 2^i, and it grows strictly from each of these attempts to the
    next. *)
Theorem C4_fallback_schedule (r : Response) (bodyStr : string) (i : Z) :
  FindStringSubmatch msPattern bodyStr = [] ->
  FindStringSubmatch secPattern bodyStr = [] ->
  no_header_hint r ->
  0 <= i <= 36 ->
  computedWait r bodyStr i = 100 * Millisecond * 2 ^ i /\
  (i < 36 -> computedWait r bodyStr i < computedWait r bodyStr (i + 1)).
Proof.
  intros Hms Hsec Hhdr Hi.
  assert (forall j, 0 <= j <= 36 -> computedWait r bodyStr j = fallbackWait j) as Hcw.
  { intros j Hj. unfold computedWait, hintedWait.
    rewrite (extract_none _ Hms Hsec). simpl.
    destruct Hhdr as [-> | ->]; [reflexivity|].
    destruct (negb _); reflexivity. }
  split.
  - rewrite Hcw by assumption. now apply fallbackWait_small.
  - intros Hlt. rewrite !Hcw by lia. apply fallbackWait_increasing; lia.
Qed.

(** C5 (as amended).  The wait between two attempts is a plain sleep of the
    whole buffered wait: whatever the deadline of the request, the clock
    stands at [now + max 0 d] after it, and the next attempt is then
    dispatched with the context of the request; when that dispatch returns
    an error, the error is returned as it is and no further attempt is
    made. *)
Theorem C5_wait_runs_in_full t req w rt r s fuel attempt resp0 err0 :
  Transport t = Some rt ->
  rt (Clone req (Request_Context req)) (now w) (net w) = (Some r, None, s) ->
  StatusCode r = StatusTooManyRequests ->
  readErr (Body r) = None ->
  attempt < MaxRetries t ->
  let d := bufferedWait (computedWait r (data (Body r)) attempt) in
  let w1 := waited d attempt (MaxRetries t) (drained (dispatched w s req)) in
  let run := retryLoop (S (S fuel)) t req attempt resp0 err0 w in
  now w1 = now w + Z.max 0 d /\
  (exists evs,
     log run.2
       = log w1 ++ EvRoundTrip (now w1) (Clone req (Request_Context req)) :: evs) /\
  (forall resp e s2,
     rt (Clone req (Request_Context req)) (now w1) (net w1) = (resp, Some e, s2) ->
     run = (Return resp (Some e), dispatched w1 s2 req)).
Proof.
  intros HT Hrt Hcode Hread Hlt d w1 run.
  assert (run = retryLoop (S fuel) t req (attempt + 1) (Some r) None w1) as Hrun.
  { unfold run. rewrite retryLoop_step by lia.
    now rewrite (attemptOnce_retry _ _ _ _ _ _ _ HT Hrt Hcode Hread Hlt). }
  split; [reflexivity|]. split.
  - rewrite Hrun, retryLoop_step by lia.
    destruct (attemptOnce_log t req (attempt + 1) w1 rt HT) as [evs Hevs].
    destruct (attemptOnce t req (attempt + 1) w1) as [[res|resp' err'] w2];
      simpl in *.
    + eexists; exact Hevs.
    + destruct (retryLoop_log fuel t req rt HT (attempt + 1 + 1) resp' err' w2)
        as [evs' ->].
      rewrite Hevs, <- app_assoc. eexists; reflexivity.
  - intros resp e s2 Hrt2. rewrite Hrun, retryLoop_step by lia.
    now rewrite (attemptOnce_error _ _ _ _ _ _ _ _ HT Hrt2).
Qed.

(** C6 (as amended).  RoundTrip writes to its receiver only to fill in the
    defaults: after a call the Transport field holds the delegate that was
    used (http.DefaultTransport if the field was nil) and MaxRetries holds
    the ceiling that was used (5 if it was 0); a non-nil Transport and a
    non-zero MaxRetries keep their values, so that no call changes a
    receiver which has been through one call. *)
Theorem C6_configuration_frame t req w :
  let t' := (RoundTrip t req w).1.2 in
  Transport t' = Some (delegate t) /\
  MaxRetries t' = (if MaxRetries t =? 0 then 5 else MaxRetries t) /\
  (Transport t <> None -> Transport t' = Transport t) /\
  (MaxRetries t <> 0 -> MaxRetries t' = MaxRetries t) /\
  (forall req2 w2, (RoundTrip t' req2 w2).1.2 = t').
Proof.
  intros t'. unfold t'. rewrite RoundTrip_receiver.
  split; [apply Transport_applyDefaults|].
  split; [apply MaxRetries_applyDefaults|].
  split; [|split].
  - intros Hne. rewrite Transport_applyDefaults. unfold delegate.
    destruct (Transport t); [reflexivity | now contradiction Hne].
  - intros Hne. rewrite MaxRetries_applyDefaults.
    apply Z.eqb_neq in Hne. now rewrite Hne.
  - intros req2 w2. rewrite RoundTrip_receiver. apply applyDefaults_idem.
Qed.

(** C7 (as amended).  When every dispatch obtains a response and MaxRetries
    is not negative, RoundTrip returns either a response whose status is not
    429 with a nil error, or a 429 response (its body read and closed)
    together with an error made in this layer: the exhaustion error once
    the ceiling is reached, or the "failed to read rate limit response"
    error when the body of a 429 response cannot be read. *)
Theorem C7_outcomes t req w :
  dispatch_ok (delegate t) -> 0 <= MaxRetries t ->
  settled (ceiling t) (RoundTrip t req w).1.1.
Proof.
  intros Hok Hpos. rewrite RoundTrip_eq. simpl.
  assert (0 <= ceiling t) as Hc.
  { unfold ceiling. rewrite MaxRetries_applyDefaults.
    destruct (MaxRetries t =? 0); lia. }
  apply (retryLoop_settled (applyDefaults t) req (delegate t)
           (Transport_applyDefaults t) Hok (Z.to_nat (ceiling t)));
    fold (ceiling t); lia.
Qed.

Lemma sleeps_app l l' : sleeps (l ++ l') = sleeps l ++ sleeps l'.
Proof.
  induction l as [|e l IH]; simpl; [reflexivity|].
  destruct e; simpl; now rewrite IH.
Qed.

Lemma sleeps_waited d a m w s req :
  sleeps (log (waited d a m (drained (dispatched w s req))))
    = sleeps (log w) ++ [d].
Proof.
  unfold waited, drained, dispatched, Sleep, emit; simpl.
  rewrite !sleeps_app; simpl. now rewrite !app_nil_r.
Qed.

(** C8 (as amended).  For every computed wait w for which
    w + w/10 + 50 ms lies within the range of time.Duration, the duration
    handed to time.Sleep before the retry is w + w/10 + 50 ms, where w/10 is
    the integer quotient; the clock moves on by that much when it is
    positive. *)
Theorem C8_safety_buffer t req attempt w rt r s :
  Transport t = Some rt ->
  rt (Clone req (Request_Context req)) (now w) (net w) = (Some r, None, s) ->
  StatusCode r = StatusTooManyRequests ->
  readErr (Body r) = None ->
  attempt < MaxRetries t ->
  let cw := computedWait r (data (Body r)) attempt in
  minInt64 <= cw + Z.quot cw 10 + 50 * Millisecond <= maxInt64 ->
  exists w1,
    attemptOnce t req attempt w = (Continue (Some r) None, w1) /\
    sleeps (log w1) = sleeps (log w) ++ [cw + Z.quot cw 10 + 50 * Millisecond] /\
    now w1 = now w + Z.max 0 (cw + Z.quot cw 10 + 50 * Millisecond).
Proof.
  intros HT Hrt Hcode Hread Hlt cw Hrange.
  rewrite (attemptOnce_retry _ _ _ _ _ _ _ HT Hrt Hcode Hread Hlt).
  fold cw.
  rewrite (bufferedWait_in_range cw (computedWait_range _ _ _) Hrange).
  eexists; split; [reflexivity|]. split.
  - apply sleeps_waited.
  - reflexivity.
Qed.

(** C9.  A response of the delegate whose status is not 429 is returned as
    it is, with a nil error and without any further dispatch: on whichever
    attempt of the loop it arrives, and so at the first attempt of
    RoundTrip, where the log grows by that one dispatch and by nothing
    else. *)
Theorem C9_passthrough t req r :
  StatusCode r <> StatusTooManyRequests ->
  (forall rt fuel attempt resp0 err0 w s,
     Transport t = Some rt ->
     rt (Clone req (Request_Context req)) (now w) (net w) = (Some r, None, s) ->
     attempt <= MaxRetries t ->
     retryLoop (S fuel) t req attempt resp0 err0 w
       = (Return (Some r) None, dispatched w s req)) /\
  (forall w s,
     delegate t (Clone req (Request_Context req)) (now w) (net w)
       = (Some r, None, s) ->
     0 <= MaxRetries t ->
     RoundTrip t req w
       = (Return (Some r) None, applyDefaults t, dispatched w s req)).
Proof.
  intros Hcode; split.
  - intros rt fuel attempt resp0 err0 w s HT Hrt Hle.
    now apply (retryLoop_pass fuel t req attempt resp0 err0 w rt r s).
  - intros w s Hrt Hpos. rewrite RoundTrip_eq. cbv zeta.
    assert (0 <= MaxRetries (applyDefaults t)) as Hc.
    { rewrite MaxRetries_applyDefaults. destruct (MaxRetries t =? 0); lia. }
    replace (Z.to_nat (MaxRetries (applyDefaults t) + 1))
      with (S (Z.to_nat (MaxRetries (applyDefaults t)))) by lia.
    now rewrite (retryLoop_pass _ _ req 0 None None w (delegate t) r s
                   (Transport_applyDefaults t) Hrt Hcode Hc).
Qed.

(** C10 (as amended).  A 429 response whose body can be read and holds no
    recognized phrase, and whose Retry-After value does not parse as a
    float: the header is dropped without any error, the wait is the
    exponential fallback of the attempt, 100 ms * 2^attempt as an int64
    count of nanoseconds (the number itself up to attempt 36), and the pass
    goes on as for any 429 response (the buffered fallback is slept before
    the next attempt, or the exhaustion error is returned at the last
    attempt). *)
Theorem C10_unparseable_header t req attempt w rt r s :
  Transport t = Some rt ->
  rt (Clone req (Request_Context req)) (now w) (net w) = (Some r, None, s) ->
  StatusCode r = StatusTooManyRequests ->
  readErr (Body r) = None ->
  FindStringSubmatch msPattern (data (Body r)) = [] ->
  FindStringSubmatch secPattern (data (Body r)) = [] ->
  ParseFloat (Header_Get (Header r) "Retry-After") = None ->
  0 <= attempt ->
  let backoff := wrap64 (100 * Millisecond * 2 ^ attempt) in
  computedWait r (data (Body r)) attempt = backoff /\
  (attempt <= 36 -> backoff = 100 * Millisecond * 2 ^ attempt) /\
  attemptOnce t req attempt w =
    (if attempt <? MaxRetries t
     then (Continue (Some r) None,
           waited (bufferedWait backoff) attempt (MaxRetries t)
             (drained (dispatched w s req)))
     else (Done (Return (Some r) (Some (rateLimitExceeded (MaxRetries t)))),
           drained (dispatched w s req))).
Proof.
  intros HT Hrt Hcode Hread Hms Hsec Hhdr Hpos backoff.
  assert (computedWait r (data (Body r)) attempt = backoff) as Hcw.
  { unfold computedWait, hintedWait.
    rewrite (extract_none _ Hms Hsec). simpl. rewrite Hhdr.
    unfold backoff. rewrite <- fallbackWait_wrap by assumption.
    destruct (negb _); reflexivity. }
  split; [exact Hcw|]. split.
  - intros Hle. unfold backoff.
    rewrite <- fallbackWait_wrap by assumption.
    apply fallbackWait_small. lia.
  - destruct (attempt <? MaxRetries t) eqn:Hlt.
    + apply Z.ltb_lt in Hlt.
      rewrite (attemptOnce_retry _ _ _ _ _ _ _ HT Hrt Hcode Hread Hlt).
      now rewrite Hcw.
    + apply Z.ltb_ge in Hlt.
      now rewrite (attemptOnce_exhausted _ _ _ _ _ _ _ HT Hrt Hcode Hread Hlt).
Qed.

End Claims.

(** ** Runs on the simulated platform *)

Section Runs.
#[local] Existing Instance simPlatform.

(** Discharge the first premise of [H] with [tac]. *)
Ltac premise H tac :=
  match type of H with
  | ?A -> _ => let Ha := fresh in assert A as Ha by tac; specialize (H Ha); clear Ha
  end.

Lemma server_always_429_readable body :
  always_429_readable (server (fun _ => rateLimited body)).
Proof. intros req tm n. eexists; eexists. repeat split. Qed.

Lemma server_always_429 (r : Response) :
  StatusCode r = StatusTooManyRequests -> always_429 (server (fun _ => r)).
Proof. intros Hr req tm n. eexists; eexists. split; [reflexivity | exact Hr]. Qed.

Lemma server_dispatch_ok answer : dispatch_ok (server answer).
Proof. intros req tm n. eexists; eexists. reflexivity. Qed.

(** The test suite, replayed on the model. *)

Example TestRateLimitRetry :
  let run := RoundTrip
    (transportOf (server (flaky 2 (rateLimited
       "You are being rate-limited. Please wait 100 milliseconds. 0/300 remaining."))) 5)
    (get None) world0 in
  run.1.1 = Return (Some okResponse) None /\
  dispatches (log run.2) = 3 /\
  sleeps (log run.2) = [160 * Millisecond; 160 * Millisecond].
Proof. vm_compute. repeat split. Qed.

Example TestRateLimitMaxRetriesExceeded :
  let run := RoundTrip
    (transportOf (server (fun _ => rateLimited
       "You are being rate-limited. Please wait 50 milliseconds. 0/300 remaining.")) 3)
    (get None) world0 in
  (exists r, run.1.1 = Return (Some r) (Some (rateLimitExceeded 3))) /\
  dispatches (log run.2) = 4.
Proof. vm_compute. split; [eexists|]; reflexivity. Qed.

(** As TestRateLimitRetryAfterHeader, with a whole number of seconds. *)
Example RetryAfterHeader_run :
  let run := RoundTrip
    (transportOf (server (flaky 1 (rateLimitedHeader "2" "rate_limit"))) 5)
    (get None) world0 in
  run.1.1 = Return (Some okResponse) None /\
  sleeps (log run.2) = [2 * Second + 200 * Millisecond + 50 * Millisecond].
Proof. vm_compute. repeat split. Qed.

Example TestRateLimitExponentialBackoff :
  let run := RoundTrip
    (transportOf (server (flaky 2 (rateLimited "rate_limit"))) 5)
    (get None) world0 in
  run.1.1 = Return (Some okResponse) None /\
  sleeps (log run.2) = [160 * Millisecond; 270 * Millisecond].
Proof. vm_compute. repeat split. Qed.

Example TestRateLimitNonRateLimitError :
  let run := RoundTrip (transportOf (server (fun _ => serverError)) 5)
    (get None) world0 in
  run.1.1 = Return (Some serverError) None /\ dispatches (log run.2) = 1.
Proof. vm_compute. repeat split. Qed.

Example TestRateLimitHighRetryCount :
  let run := RoundTrip
    (transportOf (server (flaky 10 (rateLimited "Please wait 10 milliseconds"))) 50)
    (get None) world0 in
  run.1.1 = Return (Some okResponse) None /\ dispatches (log run.2) = 11.
Proof. vm_compute. repeat split. Qed.

(** C1, witness: the ceilings of the simulated platform's transports. *)
Lemma C1_retry_ceilings_witness :
  ceiling (@Build_rateLimitTransport simPlatform None 0) = 5 /\
  MaxRetries (Client_Transport newRateLimitHTTPClient) <> 0.
Proof.
  split.
  - exact (proj1 (proj1 (@C1_retry_ceilings simPlatform) None (get None) world0)).
  - exact (proj1 (proj2 (@C1_retry_ceilings simPlatform))).
Defined.

(** C1, counterexample: the default ceiling is 5, not 100, and the client of
    newRateLimitHTTPClient is built with 100, not 50. *)
Lemma C1_ceilings_counterexample :
  ceiling (@Build_rateLimitTransport simPlatform None 0) <> 100 /\
  MaxRetries (Client_Transport newRateLimitHTTPClient) <> 50 /\
  ~ ceilings_as_stated.
Proof.
  split; [|split].
  - vm_compute. discriminate.
  - vm_compute. discriminate.
  - intros [_ H]. vm_compute in H. discriminate H.
Qed.

(** C2, witness: the server of TestRateLimitMaxRetriesExceeded. *)
Lemma C2_exhaustion_witness :
  let t := transportOf (server (fun _ => rateLimited "Please wait 50 milliseconds")) 3 in
  always_429_readable (delegate t) /\ 0 <= MaxRetries t /\
  exists r w',
    RoundTrip t (get None) world0
      = (Return (Some r) (Some (rateLimitExceeded (ceiling t))),
         applyDefaults t, w') /\
    dispatches (log w') - dispatches (log world0) = ceiling t + 1.
Proof.
  intros t.
  assert (always_429_readable (delegate t)) as Hall
    by apply server_always_429_readable.
  assert (0 <= MaxRetries t) as Hpos by (simpl; lia).
  split; [exact Hall|]. split; [exact Hpos|].
  destruct (C2_exhaustion t (get None) world0 Hall Hpos)
    as (r & w' & Hrun & _ & Hd & _).
  exists r, w'. split; assumption.
Defined.

(** C2, counterexample.  With MaxRetries 0 the call makes 6 dispatches, not
    1; with a 429 body that cannot be read it stops after 1 dispatch, not 4;
    with MaxRetries -1 it dispatches nothing and returns no error. *)
Lemma C2_exhaustion_counterexample :
  ~ exhaustion_as_stated
      (transportOf (server (fun _ => rateLimited "Please wait 50 milliseconds")) 0)
      (get None) world0 /\
  ~ exhaustion_as_stated
      (transportOf (server (fun _ => rateLimitedUnreadable)) 3)
      (get None) world0 /\
  ~ exhaustion_as_stated
      (transportOf (server (fun _ => rateLimited "Please wait 50 milliseconds")) (-1))
      (get None) world0.
Proof.
  split; [|split]; intros H; unfold exhaustion_as_stated in H;
    premise H ltac:(apply server_always_429; reflexivity);
    cbv zeta in H; destruct H as [Hd (resp & e & Heq & _)].
  - vm_compute in Hd. discriminate Hd.
  - vm_compute in Hd. discriminate Hd.
  - vm_compute in Heq. discriminate Heq.
Qed.

(** C4, witness: a 429 response without any hint, at attempt 1. *)
Lemma C4_fallback_schedule_witness :
  computedWait (rateLimited "rate_limit") "rate_limit" 1 = 100 * Millisecond * 2 ^ 1 /\
  (1 < 36 ->
   computedWait (rateLimited "rate_limit") "rate_limit" 1
     < computedWait (rateLimited "rate_limit") "rate_limit" (1 + 1)).
Proof.
  apply (@C4_fallback_schedule simPlatform (rateLimited "rate_limit") "rate_limit" 1).
  - vm_compute. reflexivity.
  - vm_compute. reflexivity.
  - left. reflexivity.
  - lia.
Defined.

(** C4, counterexample.  With the ceiling 100 of newRateLimitHTTPClient, or
    the 50 of the test suite, the schedule is not 100 ms * 2^i up to the
    ceiling: the nanosecond count wraps at attempt 37, where the fallback is
    negative and so smaller than at attempt 36, and it is 0 at attempt 56. *)
Lemma C4_fallback_counterexample :
  ~ fallback_as_stated 100 /\ ~ fallback_as_stated 50 /\
  fallbackWait 37 < 0 /\ fallbackWait 37 < fallbackWait 36 /\
  fallbackWait 56 = 0.
Proof.
  split; [|split; [|split; [|split]]].
  - intros H. destruct (H 37 ltac:(lia)) as [Heq _].
    vm_compute in Heq. discriminate Heq.
  - intros H. destruct (H 37 ltac:(lia)) as [Heq _].
    vm_compute in Heq. discriminate Heq.
  - vm_compute. reflexivity.
  - vm_compute. reflexivity.
  - vm_compute. reflexivity.
Qed.

(** C5, witness: a request with a deadline 10 ms ahead, rate-limited once
    with a wait of 100 ms. *)
Lemma C5_wait_runs_in_full_witness :
  let t := transportOf
             (ctxServer (flaky 1 (rateLimited "Please wait 100 milliseconds"))) 5 in
  let req := get (Some (10 * Millisecond)) in
  let w1 := waited 160000000 0 5 (drained (dispatched world0 1%nat req)) in
  let run := retryLoop 2 t req 0 None None world0 in
  now w1 = 160000000 /\
  (exists evs, log run.2 = log w1 ++ EvRoundTrip 160000000 req :: evs) /\
  run = (Return None (Some DeadlineExceeded), dispatched w1 1%nat req).
Proof.
  intros t req w1 run.
  pose proof (@C5_wait_runs_in_full simPlatform t req world0
                (ctxServer (flaky 1 (rateLimited "Please wait 100 milliseconds")))
                (rateLimited "Please wait 100 milliseconds") 1%nat 0%nat 0 None None
                eq_refl eq_refl eq_refl eq_refl ltac:(simpl; lia))
    as (Hnow & Hlog & Herr).
  split; [exact Hnow|]. split; [exact Hlog|].
  exact (Herr None DeadlineExceeded 1%nat eq_refl).
Defined.

(** C5, counterexample.  The deadline is 10 ms ahead and the server asks
    for 100 ms: the call sleeps the whole 160 ms and then dispatches the
    second attempt, 150 ms after the deadline. *)
Lemma C5_cancellation_counterexample :
  let t := transportOf
             (ctxServer (flaky 1 (rateLimited "Please wait 100 milliseconds"))) 5 in
  let req := get (Some (10 * Millisecond)) in
  sleeps (log (RoundTrip t req world0).2) = [160 * Millisecond] /\
  In (EvRoundTrip (160 * Millisecond) req) (log (RoundTrip t req world0).2) /\
  ~ cancellation_as_stated t req world0.
Proof.
  intros t req. split; [|split].
  - vm_compute. reflexivity.
  - vm_compute. right; right; right; right; right. left. reflexivity.
  - intros H. specialize (H (10 * Millisecond) eq_refl). cbv zeta in H.
    premise H ltac:(vm_compute; split; [discriminate | reflexivity]).
    destruct H as (_ & Hnow & _). vm_compute in Hnow. discriminate Hnow.
Qed.

(** C6, witness: a receiver with both fields set keeps them. *)
Lemma C6_configuration_frame_witness :
  let t := transportOf (server (flaky 2 (rateLimited "Please wait 10 milliseconds"))) 50 in
  Transport t <> None /\ MaxRetries t <> 0 /\
  Transport (RoundTrip t (get None) world0).1.2 = Transport t /\
  MaxRetries (RoundTrip t (get None) world0).1.2 = MaxRetries t.
Proof.
  intros t.
  assert (Transport t <> None) as HT by discriminate.
  assert (MaxRetries t <> 0) as HM by discriminate.
  pose proof (@C6_configuration_frame simPlatform t (get None) world0)
    as (_ & _ & Htr & Hmax & _).
  split; [exact HT|]. split; [exact HM|].
  split; [exact (Htr HT) | exact (Hmax HM)].
Defined.

(** C6, counterexample: a receiver with a nil Transport and MaxRetries 0 has
    http.DefaultTransport and 5 in its fields after one call. *)
Lemma C6_frame_counterexample :
  let t := @Build_rateLimitTransport simPlatform None 0 in
  MaxRetries (RoundTrip t (get None) world0).1.2 = 5 /\
  Transport (RoundTrip t (get None) world0).1.2 = Some DefaultTransport /\
  ~ frame_as_stated t (get None) world0.
Proof.
  intros t. split; [|split].
  - reflexivity.
  - reflexivity.
  - intros [_ HM]. vm_compute in HM. discriminate HM.
Qed.

(** C7, witness: the server of TestRateLimitRetry. *)
Lemma C7_outcomes_witness :
  let t := transportOf (server (flaky 2 (rateLimited "Please wait 100 milliseconds"))) 5 in
  dispatch_ok (delegate t) /\ 0 <= MaxRetries t /\
  settled (ceiling t) (RoundTrip t (get None) world0).1.1.
Proof.
  intros t.
  assert (dispatch_ok (delegate t)) as Hok by apply server_dispatch_ok.
  assert (0 <= MaxRetries t) as Hpos by (simpl; lia).
  split; [exact Hok|]. split; [exact Hpos|].
  exact (@C7_outcomes simPlatform t (get None) world0 Hok Hpos).
Defined.

(** C7, counterexample.  After the last attempt the call returns the 429
    response together with the exhaustion error; when the body of a 429
    response cannot be read it returns that response with another error of
    this layer; with MaxRetries -1 it returns neither a response nor an
    error. *)
Lemma C7_outcome_counterexample :
  let exhausted := transportOf (server (fun _ => rateLimited "Please wait 50 milliseconds")) 3 in
  let unreadable := transportOf (server (fun _ => rateLimitedUnreadable)) 3 in
  let negative := transportOf (server (fun _ => okResponse)) (-1) in
  (RoundTrip exhausted (get None) world0).1.1
    = Return (Some (rateLimited "Please wait 50 milliseconds"))
        (Some (rateLimitExceeded 3)) /\
  (RoundTrip unreadable (get None) world0).1.1
    = Return (Some rateLimitedUnreadable) (Some (readFailed unexpectedEOF)) /\
  (RoundTrip negative (get None) world0).1.1 = Return None None /\
  ~ outcome_as_stated exhausted (get None) world0 /\
  ~ outcome_as_stated unreadable (get None) world0 /\
  ~ outcome_as_stated negative (get None) world0.
Proof.
  intros exhausted unreadable negative.
  assert ((RoundTrip exhausted (get None) world0).1.1
    = Return (Some (rateLimited "Please wait 50 milliseconds"))
        (Some (rateLimitExceeded 3))) as H1 by (vm_compute; reflexivity).
  assert ((RoundTrip unreadable (get None) world0).1.1
    = Return (Some rateLimitedUnreadable) (Some (readFailed unexpectedEOF))) as H2
    by (vm_compute; reflexivity).
  assert ((RoundTrip negative (get None) world0).1.1 = Return None None) as H3
    by (vm_compute; reflexivity).
  split; [exact H1|]. split; [exact H2|]. split; [exact H3|].
  split; [|split]; intros H; unfold outcome_as_stated in H;
    premise H ltac:(apply server_dispatch_ok); cbv zeta in H.
  - rewrite H1 in H. destruct H as [(r & Heq & _) | (R & Heq)]; discriminate Heq.
  - rewrite H2 in H. destruct H as [(r & Heq & _) | (R & Heq)]; discriminate Heq.
  - rewrite H3 in H. destruct H as [(r & Heq & _) | (R & Heq)]; discriminate Heq.
Qed.

(** C8, witness: a wait of 100 ms asked in the body is slept as 160 ms. *)
Lemma C8_safety_buffer_witness :
  let t := transportOf (server (flaky 2 (rateLimited "Please wait 100 milliseconds"))) 5 in
  exists w1,
    attemptOnce t (get None) 0 world0
      = (Continue (Some (rateLimited "Please wait 100 milliseconds")) None, w1) /\
    sleeps (log w1) = [100 * Millisecond + 10 * Millisecond + 50 * Millisecond] /\
    now w1 = 160 * Millisecond.
Proof.
  intros t.
  destruct (@C8_safety_buffer simPlatform t (get None) 0 world0
              (server (flaky 2 (rateLimited "Please wait 100 milliseconds")))
              (rateLimited "Please wait 100 milliseconds") 1%nat
              eq_refl eq_refl eq_refl eq_refl ltac:(simpl; lia)
              ltac:(vm_compute; split; discriminate))
    as (w1 & Hrun & Hsleeps & Hnow).
  exists w1. split; [exact Hrun|]. split; [exact Hsleeps | exact Hnow].
Defined.

(** C8, counterexample.  A server that asks for 9000000000 seconds: the
    computed wait fits time.Duration, the buffered wait does not and wraps
    to a negative duration, so that the retry follows at once. *)
Lemma C8_buffer_counterexample :
  let w := extractWaitTime "Please wait 9000000000 seconds" in
  let t := transportOf
             (server (flaky 1 (rateLimited "Please wait 9000000000 seconds"))) 5 in
  w = 9000000000 * Second /\
  bufferedWait w = -8546744073659551616 /\
  sleeps (log (RoundTrip t (get None) world0).2) = [-8546744073659551616] /\
  now (RoundTrip t (get None) world0).2 = 0 /\
  ~ buffer_as_stated w.
Proof.
  intros w t. split; [|split; [|split; [|split]]]; try (vm_compute; reflexivity).
  intros H. vm_compute in H. discriminate H.
Qed.

(** C9, witness: the server of TestRateLimitNonRateLimitError. *)
Lemma C9_passthrough_witness :
  let t := transportOf (server (fun _ => serverError)) 5 in
  StatusCode serverError <> StatusTooManyRequests /\
  RoundTrip t (get None) world0
    = (Return (Some serverError) None, applyDefaults t,
       dispatched world0 1%nat (get None)) /\
  dispatches (log (dispatched world0 1%nat (get None))) = 1.
Proof.
  intros t.
  assert (StatusCode serverError <> StatusTooManyRequests) as Hcode by discriminate.
  split; [exact Hcode|]. split; [|reflexivity].
  apply (proj2 (@C9_passthrough simPlatform t (get None) serverError Hcode)
           world0 1%nat eq_refl).
  simpl; lia.
Defined.

(** C10, witness: a Retry-After header that holds an HTTP date, at
    attempt 3: the wait is 800 ms, slept as 930 ms. *)
Lemma C10_unparseable_header_witness :
  let r := rateLimitedHeader "Wed, 21 Oct 2015 07:28:00 GMT" "rate_limit" in
  let t := transportOf (server (fun _ => r)) 5 in
  ParseFloat (Header_Get (Header r) "Retry-After") = None /\
  computedWait r (data (Body r)) 3 = 800 * Millisecond /\
  attemptOnce t (get None) 3 world0
    = (Continue (Some r) None,
       waited (930 * Millisecond) 3 5 (drained (dispatched world0 1%nat (get None)))).
Proof.
  intros r t.
  assert (ParseFloat (Header_Get (Header r) "Retry-After") = None) as Hhdr
    by (vm_compute; reflexivity).
  split; [exact Hhdr|].
  destruct (@C10_unparseable_header simPlatform t (get None) 3 world0
              (server (fun _ => r)) r 1%nat
              eq_refl eq_refl eq_refl eq_refl
              ltac:(vm_compute; reflexivity) ltac:(vm_compute; reflexivity) Hhdr
              ltac:(lia))
    as (Hcw & _ & Hpass).
  split; [exact Hcw | exact Hpass].
Defined.

(** C10, counterexample.  The same header on a 429 response whose body
    breaks off: the pass computes no wait and sleeps nothing, and the call
    returns the "failed to read rate limit response" error. *)
Lemma C10_header_counterexample :
  let r := rateLimitedDateUnreadable in
  let t := transportOf (server (fun _ => r)) 5 in
  ParseFloat (Header_Get (Header r) "Retry-After") = None /\
  (attemptOnce t (get None) 0 world0).1
    = Done (Return (Some r) (Some (readFailed unexpectedEOF))) /\
  sleeps (log (attemptOnce t (get None) 0 world0).2) = [] /\
  (RoundTrip t (get None) world0).1.1
    = Return (Some r) (Some (readFailed unexpectedEOF)) /\
  ~ header_fallback_as_stated t (get None) 0 world0.
Proof.
  intros r t.
  split; [vm_compute; reflexivity|].
  split; [vm_compute; reflexivity|].
  split; [vm_compute; reflexivity|].
  split; [vm_compute; reflexivity|].
  intros H.
  specialize (H (server (fun _ => r)) r 1%nat eq_refl eq_refl eq_refl).
  premise H ltac:(vm_compute; reflexivity).
  premise H ltac:(vm_compute; reflexivity).
  premise H ltac:(vm_compute; discriminate).
  premise H ltac:(vm_compute; reflexivity).
  cbv zeta in H. destruct H as [[Heq _] | Heq]; vm_compute in Heq; discriminate Heq.
Qed.

End Runs.

(** ** Further properties of RoundTrip *)

Section Further.
Context `{P : Platform}.

Implicit Types (t : rateLimitTransport) (req : Request) (w : World).

Lemma dispatches_count l : dispatches l = count_events is_dispatch l.
Proof. induction l as [|e l IH]; simpl; [reflexivity | now rewrite IH]. Qed.

Lemma sleeps_count l : Z.of_nat (length (sleeps l)) = count_events is_sleep l.
Proof.
  induction l as [|e l IH]; simpl; [reflexivity|].
  destruct e; simpl; lia.
Qed.

Lemma elapsed_app ds ds' : elapsed (ds ++ ds') = elapsed ds + elapsed ds'.
Proof. induction ds as [|d ds IH]; simpl; [reflexivity | rewrite IH; lia]. Qed.

(** What one pass of the loop adds to the log. *)
Lemma attemptOnce_shape t req a w rt :
  Transport t = Some rt ->
  let c := Clone req (Request_Context req) in
  match attemptOnce t req a w with
  | (Done _, w') =>
      log w' = log w ++ [EvRoundTrip (now w) c] \/
      log w' = log w ++ [EvRoundTrip (now w) c; EvReadAll; EvClose]
  | (Continue _ _, w') =>
      a < MaxRetries t /\
      exists d,
        now w' = now w + Z.max 0 d /\
        log w' = log w ++ [EvRoundTrip (now w) c; EvReadAll; EvClose;
                           EvPrintf d (a + 1) (MaxRetries t); EvSleep d]
  end.
Proof.
  intros HT c. unfold attemptOnce, dispatch. rewrite HT. fold c.
  destruct (rt c (now w) (net w)) as [[resp err] s].
  destruct err as [e|]; [left; reflexivity|].
  destruct resp as [r|]; [|left; reflexivity].
  destruct (StatusCode r =? StatusTooManyRequests); [|left; reflexivity].
  unfold ReadAll. destruct (readErr (Body r)).
  { right. simpl. now rewrite <- !app_assoc. }
  destruct (a <? MaxRetries t) eqn:Hlt.
  - apply Z.ltb_lt in Hlt. split; [assumption|].
    eexists; split; [reflexivity|]. simpl. now rewrite <- !app_assoc.
  - right. simpl. now rewrite <- !app_assoc.
Qed.

Lemma retryLoop_shape t req rt :
  Transport t = Some rt ->
  forall fuel a resp err w,
    (Z.to_nat (MaxRetries t + 1 - a) <= fuel)%nat ->
    exists evs,
      log (retryLoop fuel t req a resp err w).2 = log w ++ evs /\
      call_log req (MaxRetries t) a (now w) evs.
Proof.
  intros HT. induction fuel as [|fuel IH]; intros a resp err w Hfuel; simpl;
    destruct (a <=? MaxRetries t) eqn:Hle;
    try (apply Z.leb_gt in Hle; exists []; split;
         [now rewrite app_nil_r | now apply call_skipped]).
  - apply Z.leb_le in Hle. lia.
  - apply Z.leb_le in Hle.
    pose proof (attemptOnce_shape t req a w rt HT) as Hs. cbv zeta in Hs.
    destruct (attemptOnce t req a w) as [[r|resp' err'] w1]; simpl.
    + destruct Hs as [-> | ->]; eexists; (split; [reflexivity|]).
      * now apply call_returned.
      * now apply call_drained.
    + destruct Hs as (Hlt & d & Hnow & Hlog).
      destruct (IH (a + 1) resp' err' w1 ltac:(lia)) as (evs & -> & Hcl).
      rewrite Hlog, <- app_assoc. eexists; split; [reflexivity|].
      simpl. apply call_retried; [assumption|]. now rewrite <- Hnow.
Qed.

Lemma RoundTrip_call_log t req w :
  exists evs,
    log (RoundTrip t req w).2 = log w ++ evs /\
    call_log req (ceiling t) 0 (now w) evs.
Proof.
  rewrite RoundTrip_eq. cbv zeta. cbn [fst snd].
  apply (retryLoop_shape (applyDefaults t) req (delegate t)
           (Transport_applyDefaults t)).
  rewrite Z.sub_0_r. lia.
Qed.



Lemma count_events_nonneg p l : 0 <= count_events p l.
Proof.
  induction l as [|e l IH]; simpl; [lia|]. destruct (p e); lia.
Qed.

Lemma call_log_counts req R a tm evs :
  call_log req R a tm evs ->
  0 <= count_events is_dispatch evs <= Z.max 0 (R - a + 1) /\
  count_events is_sleep evs = Z.max 0 (count_events is_dispatch evs - 1) /\
  count_events is_read evs = count_events is_close evs /\
  count_events is_printf evs = count_events is_sleep evs /\
  count_events is_sleep evs <= count_events is_read evs.
Proof.
  induction 1 as [a tm Ha | a tm Ha | a tm Ha | a tm d rest Ha Hrest IH];
    simpl; try lia.
  destruct IH as (Hd & Hs & Hr & Hp & Hsr).
  assert (1 <= count_events is_dispatch rest).
  { inversion Hrest; subst; cbn [count_events is_dispatch]; try lia.
    match goal with
    | |- context [count_events is_dispatch ?l] =>
        pose proof (count_events_nonneg is_dispatch l)
    end. lia. }
  lia.
Qed.

Lemma count_events_app p l l' :
  count_events p (l ++ l') = count_events p l + count_events p l'.
Proof. induction l as [|e l IH]; simpl; [reflexivity | rewrite IH; lia]. Qed.

(** X2.  Whatever the delegate answers, a call makes at most ceiling + 1
    dispatches; it sleeps once between two dispatches and never after the
    last one; it closes every body it reads, and it reads the body of every
    response it sleeps on. *)
Theorem X2_attempt_bound t req w :
  let before := log w in
  let after := log (RoundTrip t req w).2 in
  let n := dispatches after - dispatches before in
  0 <= n <= Z.max 0 (ceiling t + 1) /\
  count_events is_sleep after - count_events is_sleep before = Z.max 0 (n - 1) /\
  count_events is_read after - count_events is_read before
    = count_events is_close after - count_events is_close before /\
  count_events is_sleep after - count_events is_sleep before
    <= count_events is_read after - count_events is_read before.
Proof.
  intros before after n. unfold n, after, before.
  destruct (RoundTrip_call_log t req w) as (evs & -> & Hcl).
  apply call_log_counts in Hcl as (Hd & Hs & Hr & Hp & Hsr).
  rewrite !dispatches_count, !count_events_app.
  replace (ceiling t - 0 + 1) with (ceiling t + 1) in Hd by lia.
  repeat split; lia.
Qed.

Lemma attemptOnce_abides t req a w rt :
  Transport t = Some rt -> abides rt ->
  (attemptOnce t req a w).1 <> Done Panic.
Proof.
  intros HT Hab. unfold attemptOnce, dispatch. rewrite HT.
  specialize (Hab (Clone req (Request_Context req)) (now w) (net w)).
  destruct (rt _ _ _) as [[resp err] s]. simpl in Hab.
  destruct err; [discriminate|]. destruct resp as [r|].
  2: { destruct Hab as [Hab | Hab]; now contradiction Hab. }
  destruct (StatusCode r =? StatusTooManyRequests); [|discriminate].
  unfold ReadAll. destruct (readErr (Body r)); [discriminate|].
  destruct (a <? MaxRetries t); discriminate.
Qed.

Lemma retryLoop_abides t req rt :
  Transport t = Some rt -> abides rt ->
  forall fuel a resp err w, (retryLoop fuel t req a resp err w).1 <> Panic.
Proof.
  intros HT Hab. induction fuel as [|fuel IH]; intros a resp err w; simpl;
    destruct (a <=? MaxRetries t); try discriminate.
  pose proof (attemptOnce_abides t req a w rt HT Hab) as Hne.
  destruct (attemptOnce t req a w) as [[r|resp' err'] w1]; simpl in *.
  - intros ->. now apply Hne.
  - apply IH.
Qed.

(** X3.  With a delegate that keeps the contract of http.RoundTripper (it
    never returns a nil response together with a nil error), every call of
    RoundTrip returns: it neither panics nor loops for ever. *)
Theorem X3_returns t req w :
  abides (delegate t) ->
  exists resp err, (RoundTrip t req w).1.1 = Return resp err.
Proof.
  intros Hab.
  pose proof (RoundTrip_in_fuel t req w) as Hfuel.
  assert ((RoundTrip t req w).1.1 <> Panic) as Hpanic.
  { rewrite RoundTrip_eq. cbv zeta. cbn [fst snd].
    apply (retryLoop_abides _ req (delegate t) (Transport_applyDefaults t) Hab). }
  destruct ((RoundTrip t req w).1.1) as [resp err| |].
  - now exists resp, err.
  - now contradiction Hpanic.
  - now contradiction Hfuel.
Qed.

Lemma ceiling_nonneg t : 0 <= MaxRetries t -> 0 <= MaxRetries (applyDefaults t).
Proof.
  intros Hpos. rewrite MaxRetries_applyDefaults.
  destruct (MaxRetries t =? 0); lia.
Qed.

Lemma RoundTrip_first t req w :
  0 <= MaxRetries t ->
  RoundTrip t req w =
  (match attemptOnce (applyDefaults t) req 0 w with
   | (Done r, w') => (r, w')
   | (Continue resp err, w') =>
       retryLoop (Z.to_nat (MaxRetries (applyDefaults t))) (applyDefaults t)
         req (0 + 1) resp err w'
   end.1,
   applyDefaults t,
   match attemptOnce (applyDefaults t) req 0 w with
   | (Done r, w') => (r, w')
   | (Continue resp err, w') =>
       retryLoop (Z.to_nat (MaxRetries (applyDefaults t))) (applyDefaults t)
         req (0 + 1) resp err w'
   end.2).
Proof.
  intros Hpos. apply ceiling_nonneg in Hpos.
  rewrite RoundTrip_eq. cbv zeta.
  replace (Z.to_nat (MaxRetries (applyDefaults t) + 1))
    with (S (Z.to_nat (MaxRetries (applyDefaults t)))) by lia.
  now rewrite retryLoop_step by assumption.
Qed.

(** X4.  An error of the delegate is never retried: on whichever attempt
    the delegate returns an error, the call returns at once what the
    delegate returned, response and error as they are, and the dispatch is
    the last event of the call (nothing is read, closed, printed or slept);
    so for RoundTrip at its first attempt. *)
Theorem X4_transport_error t req resp e :
  (forall rt fuel attempt resp0 err0 w s,
     Transport t = Some rt ->
     rt (Clone req (Request_Context req)) (now w) (net w) = (resp, Some e, s) ->
     attempt <= MaxRetries t ->
     retryLoop (S fuel) t req attempt resp0 err0 w
       = (Return resp (Some e), dispatched w s req)) /\
  (forall w s,
     delegate t (Clone req (Request_Context req)) (now w) (net w)
       = (resp, Some e, s) ->
     0 <= MaxRetries t ->
     RoundTrip t req w = (Return resp (Some e), applyDefaults t, dispatched w s req)).
Proof.
  split.
  - intros rt fuel attempt resp0 err0 w s HT Hrt Hle.
    rewrite retryLoop_step by assumption.
    now rewrite (attemptOnce_error _ _ _ _ _ _ _ _ HT Hrt).
  - intros w s Hrt Hpos. rewrite RoundTrip_first by assumption.
    now rewrite (attemptOnce_error _ _ _ _ _ _ _ _ (Transport_applyDefaults t) Hrt).
Qed.

(** X5.  When the body of a 429 response cannot be read, the call ends at
    that attempt, whatever the ceiling: the body is closed all the same,
    nothing is slept, and the result is that response together with an
    error whose text is "failed to read rate limit response: " followed by
    the text of the read error, which it wraps. *)
Theorem X5_unreadable_body t req r e :
  StatusCode r = StatusTooManyRequests ->
  readErr (Body r) = Some e ->
  (forall rt fuel attempt resp0 err0 w s,
     Transport t = Some rt ->
     rt (Clone req (Request_Context req)) (now w) (net w) = (Some r, None, s) ->
     attempt <= MaxRetries t ->
     retryLoop (S fuel) t req attempt resp0 err0 w
       = (Return (Some r) (Some (readFailed e)), drained (dispatched w s req))) /\
  (forall w s,
     delegate t (Clone req (Request_Context req)) (now w) (net w)
       = (Some r, None, s) ->
     0 <= MaxRetries t ->
     RoundTrip t req w
       = (Return (Some r) (Some (readFailed e)), applyDefaults t,
          drained (dispatched w s req)) /\
     sleeps (log (drained (dispatched w s req))) = sleeps (log w)) /\
  readFailed e
    = wrapError ("failed to read rate limit response: " +:+ Error e) e.
Proof.
  intros Hcode Hread. split; [|split].
  - intros rt fuel attempt resp0 err0 w s HT Hrt Hle.
    rewrite retryLoop_step by assumption.
    now rewrite (attemptOnce_unreadable _ _ _ _ _ _ _ _ HT Hrt Hcode Hread).
  - intros w s Hrt Hpos. split.
    + rewrite RoundTrip_first by assumption.
      now rewrite (attemptOnce_unreadable _ _ _ _ _ _ _ _
                     (Transport_applyDefaults t) Hrt Hcode Hread).
    + unfold drained, dispatched, emit. simpl.
      rewrite !sleeps_app. simpl. now rewrite !app_nil_r.
  - reflexivity.
Qed.

(** X6.  With a negative MaxRetries the loop is not entered: the call
    dispatches nothing, leaves the world as it is, and returns a nil
    response with a nil error. *)
Theorem X6_negative_ceiling t req w :
  MaxRetries t < 0 ->
  RoundTrip t req w = (Return None None, applyDefaults t, w) /\
  MaxRetries (applyDefaults t) = MaxRetries t.
Proof.
  intros Hneg.
  assert (MaxRetries (applyDefaults t) = MaxRetries t) as HM.
  { rewrite MaxRetries_applyDefaults.
    destruct (MaxRetries t =? 0) eqn:E; [apply Z.eqb_eq in E; lia | reflexivity]. }
  split; [|exact HM].
  rewrite RoundTrip_eq. cbv zeta.
  now rewrite retryLoop_exit by lia.
Qed.

Lemma retryLoop_scripted t req rt counter answers :
  Transport t = Some rt -> scripted rt counter answers ->
  forall k fuel attempt resp err w,
    (forall i, (i < k)%nat -> rate_limits (answers (counter (net w) + i)%nat)) ->
    StatusCode (answers (counter (net w) + k)%nat) <> StatusTooManyRequests ->
    attempt + Z.of_nat k <= MaxRetries t ->
    (k < fuel)%nat ->
    let run := retryLoop fuel t req attempt resp err w in
    run.1 = Return (Some (answers (counter (net w) + k)%nat)) None /\
    dispatches (log run.2) = dispatches (log w) + Z.of_nat k + 1 /\
    sleeps (log run.2)
      = sleeps (log w) ++ retryWaits answers (counter (net w)) attempt k /\
    now run.2
      = now w + elapsed (retryWaits answers (counter (net w)) attempt k).
Proof.
  intros HT Hsc. induction k as [|k IH];
    intros fuel attempt resp err w Hlim Hok Hle Hfuel run; unfold run;
    (destruct fuel as [|fuel]; [lia|]);
    destruct (Hsc (Clone req (Request_Context req)) (now w) (net w))
      as (s & Hrt & Hs);
    rewrite retryLoop_step by lia.
  - rewrite Nat.add_0_r in Hok.
    rewrite (attemptOnce_pass _ _ _ _ _ _ _ HT Hrt Hok). cbn [fst snd].
    rewrite Nat.add_0_r, dispatches_dispatched. simpl.
    unfold dispatched; simpl. rewrite sleeps_app; simpl.
    rewrite !app_nil_r. repeat split; lia.
  - destruct (Hlim 0%nat ltac:(lia)) as [Hcode Hread].
    rewrite Nat.add_0_r in Hcode, Hread.
    rewrite (attemptOnce_retry _ _ _ _ _ _ _ HT Hrt Hcode Hread) by lia.
    set (w1 := waited _ _ _ _).
    assert (counter (net w1) = S (counter (net w))) as Hc by exact Hs.
    specialize (IH fuel (attempt + 1) (Some (answers (counter (net w)))) None w1).
    rewrite Hc in IH.
    destruct IH as (Hres & Hd & Hsl & Hnow).
    + intros i Hi. replace (S (counter (net w)) + i)%nat
        with (counter (net w) + S i)%nat by lia. apply Hlim. lia.
    + replace (S (counter (net w)) + k)%nat
        with (counter (net w) + S k)%nat by lia. exact Hok.
    + lia.
    + lia.
    + replace (counter (net w) + S k)%nat
        with (S (counter (net w)) + k)%nat by lia.
      split; [exact Hres|]. split; [|split].
      * rewrite Hd. unfold w1.
        rewrite dispatches_waited, dispatches_drained, dispatches_dispatched. lia.
      * rewrite Hsl. unfold w1. rewrite sleeps_waited.
        rewrite <- app_assoc. reflexivity.
      * rewrite Hnow. unfold w1. cbn [retryWaits elapsed].
        unfold waited, Sleep, emit, drained, dispatched. simpl. lia.
Qed.

(** X7.  A server that rate-limits the first k requests of a call (k not
    above the ceiling) and then answers with another status: the call
    returns that answer with a nil error after exactly k + 1 dispatches; it
    has slept k times, the buffered wait computed from each 429 response
    and its attempt, and at its end the clock has moved on by the sum of
    these waits (the positive ones). *)
Theorem X7_success_after_retries t req w counter answers (k : nat) :
  scripted (delegate t) counter answers ->
  (forall i, (i < k)%nat -> rate_limits (answers (counter (net w) + i)%nat)) ->
  StatusCode (answers (counter (net w) + k)%nat) <> StatusTooManyRequests ->
  Z.of_nat k <= ceiling t ->
  let run := RoundTrip t req w in
  let waits := retryWaits answers (counter (net w)) 0 k in
  run.1.1 = Return (Some (answers (counter (net w) + k)%nat)) None /\
  dispatches (log run.2) - dispatches (log w) = Z.of_nat k + 1 /\
  sleeps (log run.2) = sleeps (log w) ++ waits /\
  now run.2 = now w + elapsed waits.
Proof.
  intros Hsc Hlim Hok Hk run waits. unfold run, waits.
  rewrite RoundTrip_eq. cbv zeta. cbn [fst snd].
  destruct (retryLoop_scripted (applyDefaults t) req (delegate t) counter answers
              (Transport_applyDefaults t) Hsc k
              (Z.to_nat (MaxRetries (applyDefaults t) + 1)) 0 None None w
              Hlim Hok)
    as (Hres & Hd & Hsl & Hnow).
  - unfold ceiling in Hk. lia.
  - unfold ceiling in Hk. lia.
  - split; [exact Hres|]. split; [lia|]. split; assumption.
Qed.

Lemma ParseInt_overflow ds :
  number ds -> maxInt64 < decimal ds -> ParseInt ds = None.
Proof.
  intros [Hd Hne] Hmax. destruct ds as [|c ds]; [now contradiction Hne|].
  unfold ParseInt.
  assert (Ascii.eqb c "+" = false) as ->.
  { destruct (Ascii.eqb_spec c "+"%char) as [->|]; [discriminate Hd | reflexivity]. }
  assert (Ascii.eqb c "-" = false) as ->.
  { destruct (Ascii.eqb_spec c "-"%char) as [->|]; [discriminate Hd | reflexivity]. }
  rewrite (parse_digits_all 0 _ Hd). fold (decimal (String c ds)).
  unfold maxInt64 in Hmax.
  replace (2 ^ 63 <=? decimal (String c ds)) with true by lia.
  reflexivity.
Qed.

Lemma decimal_nonneg ds : number ds -> 0 <= decimal ds.
Proof. intros [Hd _]. now apply (decimal_from_ge 0 ds Hd). Qed.

(** X8.  A milliseconds phrase in the body decides the wait on its own:
    when the leftmost such phrase of a 429 body asks for N > 0 milliseconds
    (small enough for the buffered wait to fit time.Duration) and a retry
    is left, the pass sleeps N ms + N ms / 10 + 50 ms, whatever the
    Retry-After header holds and whatever the attempt is. *)
Theorem X8_body_hint_decides t req attempt w rt r s ds :
  Transport t = Some rt ->
  rt (Clone req (Request_Context req)) (now w) (net w) = (Some r, None, s) ->
  rate_limits r ->
  attempt < MaxRetries t ->
  first_phrase "millisecond" (data (Body r)) ds ->
  let n := decimal ds * Millisecond in
  0 < n ->
  n + Z.quot n 10 + 50 * Millisecond <= maxInt64 ->
  computedWait r (data (Body r)) attempt = n /\
  attemptOnce t req attempt w
    = (Continue (Some r) None,
       waited (n + Z.quot n 10 + 50 * Millisecond) attempt (MaxRetries t)
         (drained (dispatched w s req))).
Proof.
  intros HT Hrt [Hcode Hread] Hlt Hf n Hpos Hmax.
  assert (0 <= Z.quot n 10) as Hq by (apply Z.quot_pos; lia).
  assert (extractWaitTime (data (Body r)) = n) as Hex.
  { rewrite (extract_first_ms _ ds Hf).
    - apply wrap64_small. unfold minInt64, maxInt64, Millisecond in *.
      fold n. lia.
    - unfold n, maxInt64, Millisecond in *. lia. }
  assert (computedWait r (data (Body r)) attempt = n) as Hcw.
  { assert ((n =? 0) = false) as Hn0 by lia.
    unfold computedWait, hintedWait. rewrite Hex, Hn0. cbv iota.
    now rewrite Hn0. }
  split; [exact Hcw|].
  rewrite (attemptOnce_retry _ _ _ _ _ _ _ HT Hrt Hcode Hread Hlt), Hcw.
  rewrite bufferedWait_in_range; [reflexivity| |];
    unfold minInt64, maxInt64, Millisecond in *; lia.
Qed.

(** X9.  The Retry-After header is used when the body holds no phrase:
    when its value parses, the wait is the duration it converts to, at any
    attempt, unless that duration is zero, in which case the wait is the
    exponential fallback of the attempt. *)
Theorem X9_header_hint (r : Response) (bodyStr : string) (attempt : Z) f :
  FindStringSubmatch msPattern bodyStr = [] ->
  FindStringSubmatch secPattern bodyStr = [] ->
  Header_Get (Header r) "Retry-After" <> EmptyString ->
  ParseFloat (Header_Get (Header r) "Retry-After") = Some f ->
  let d := wrap64 (secondsToDuration f) in
  (d <> 0 -> computedWait r bodyStr attempt = d) /\
  (d = 0 -> computedWait r bodyStr attempt = fallbackWait attempt).
Proof.
  intros Hms Hsec Hne Hf d.
  assert (hintedWait r bodyStr = d) as Hh.
  { unfold hintedWait. rewrite (extract_none _ Hms Hsec). simpl.
    apply String.eqb_neq in Hne. rewrite Hne. simpl. now rewrite Hf. }
  unfold computedWait. rewrite Hh. split; intros Hd.
  - apply Z.eqb_neq in Hd. now rewrite Hd.
  - now rewrite Hd.
Qed.


(** X11.  A milliseconds number too large for int64 is not an error: the
    milliseconds phrase is passed over and the seconds pattern decides, so
    the result is zero when the body has no seconds phrase and N seconds
    when its leftmost seconds phrase asks for N (within range). *)
Theorem X11_overflowing_number (body ds : string) :
  first_phrase "millisecond" body ds ->
  maxInt64 < decimal ds ->
  (~ has_phrase "second" body -> extractWaitTime body = 0) /\
  (forall ds', first_phrase "second" body ds' ->
     decimal ds' * Second <= maxInt64 ->
     extractWaitTime body = decimal ds' * Second).
Proof.
  intros Hf Hbig. destruct (find_first _ _ _ Hf) as [whole Hw].
  assert (number ds) as Hn by (destruct Hf as (? & ? & [? _] & _); assumption).
  assert (extractWaitTime body = extract_patterns 1 [secPattern] body) as Hskip.
  { unfold extractWaitTime. cbn [extract_patterns].
    change msPattern with (unitPattern "millisecond"). rewrite Hw. simpl.
    now rewrite (ParseInt_overflow _ Hn Hbig). }
  rewrite Hskip. split.
  - intros Hno. cbn [extract_patterns].
    change secPattern with (unitPattern "second").
    now rewrite (find_none _ _ Hno).
  - intros ds' Hf' Hmax. destruct (find_first _ _ _ Hf') as [whole' Hw'].
    assert (number ds') as Hn' by (destruct Hf' as (? & ? & [? _] & _); assumption).
    pose proof (decimal_nonneg _ Hn') as Hpos.
    cbn [extract_patterns]. change secPattern with (unitPattern "second").
    rewrite Hw'. simpl.
    rewrite (ParseInt_number _ Hn') by (unfold maxInt64, Second in *; lia).
    apply wrap64_small. unfold minInt64, maxInt64, Second in *. lia.
Qed.

Lemma fallbackWait_zero i : 56 <= i -> fallbackWait i = 0.
Proof.
  intros Hi. rewrite fallbackWait_wrap by lia.
  replace i with (56 + (i - 56)) by lia. rewrite Z.pow_add_r by lia.
  unfold wrap64, Millisecond.
  replace (100 * 1000000 * (2 ^ 56 * 2 ^ (i - 56)) + 2 ^ 63)
    with (2 ^ 63 + (390625 * 2 ^ (i - 56)) * 2 ^ 64) by ring.
  rewrite Z_mod_plus_full. reflexivity.
Qed.

(** X12.  From attempt 56 on the exponential fallback is zero (the count
    of nanoseconds is a multiple of 2^64): for a 429 response without any
    hint the wait handed to the sleep is the bare 50 ms of the buffer. *)
Theorem X12_fallback_runs_out (r : Response) (bodyStr : string) (i : Z) :
  FindStringSubmatch msPattern bodyStr = [] ->
  FindStringSubmatch secPattern bodyStr = [] ->
  no_header_hint r ->
  56 <= i ->
  computedWait r bodyStr i = 0 /\
  bufferedWait (computedWait r bodyStr i) = 50 * Millisecond.
Proof.
  intros Hms Hsec Hhdr Hi.
  assert (computedWait r bodyStr i = 0) as Hcw.
  { unfold computedWait, hintedWait.
    rewrite (extract_none _ Hms Hsec). simpl.
    destruct Hhdr as [-> | ->]; simpl; [now apply fallbackWait_zero|].
    destruct (negb _); simpl; now apply fallbackWait_zero. }
  split; [exact Hcw|]. rewrite Hcw. reflexivity.
Qed.

(** X13.  The buffer only lengthens a wait: for waits that are not
    negative and whose buffered value fits time.Duration, the buffered
    wait is at least the wait plus 50 ms, and a longer wait gives a buffered
    wait at least as long. *)
Theorem X13_buffer_lengthens (w1 w2 : Z) :
  0 <= w1 <= w2 ->
  w2 + Z.quot w2 10 + 50 * Millisecond <= maxInt64 ->
  w1 + 50 * Millisecond <= bufferedWait w1 /\
  bufferedWait w1 <= bufferedWait w2.
Proof.
  intros Hw Hmax.
  assert (0 <= Z.quot w1 10) by (apply Z.quot_pos; lia).
  assert (Z.quot w1 10 <= Z.quot w2 10) by (apply Z.quot_le_mono; lia).
  unfold maxInt64, Millisecond in *.
  rewrite (bufferedWait_in_range w1), (bufferedWait_in_range w2);
    unfold minInt64, maxInt64, Millisecond; lia.
Qed.

(** X14.  The transport of the client built by newRateLimitHTTPClient has
    both fields set, so that no call changes it; every call goes through
    http.DefaultTransport and makes at most 101 dispatches. *)
Theorem X14_production_client req w :
  let t := Client_Transport newRateLimitHTTPClient in
  (RoundTrip t req w).1.2 = t /\
  delegate t = DefaultTransport /\
  0 <= dispatches (log (RoundTrip t req w).2) - dispatches (log w) <= 101.
Proof.
  intros t. split; [|split].
  - rewrite RoundTrip_receiver. reflexivity.
  - reflexivity.
  - destruct (RoundTrip_call_log t req w) as (evs & -> & Hcl).
    apply call_log_counts in Hcl as (Hd & _).
    rewrite !dispatches_count, count_events_app.
    change (ceiling t) with 100 in Hd. lia.
Qed.

(** X15.  The defaults a call writes into its receiver do not change what
    later calls do: a call on the receiver left by any earlier call gives
    the result, the receiver and the world that the same call gives on the
    receiver as it was constructed. *)
Theorem X15_defaults_invisible t req0 w0 req w :
  RoundTrip (RoundTrip t req0 w0).1.2 req w = RoundTrip (applyDefaults t) req w /\
  RoundTrip (applyDefaults t) req w = RoundTrip t req w.
Proof.
  rewrite RoundTrip_receiver. split; [reflexivity|].
  rewrite (RoundTrip_eq (applyDefaults t)), (RoundTrip_eq t).
  now rewrite applyDefaults_idem.
Qed.

Lemma str_In_app c a b : str_In c b -> str_In c (a +:+ b).
Proof. induction a as [|x a IH]; simpl; [trivial | right; auto]. Qed.

Lemma has_phrase_capital unit body : has_phrase unit body -> str_In "P" body.
Proof.
  intros (pre & ds & post & _ & ->). apply str_In_app.
  unfold phrase. simpl. left. reflexivity.
Qed.

(** X16.  The patterns are case-sensitive: a body without a capital "P"
    holds no wait phrase, and extractWaitTime returns zero for it. *)
Theorem X16_case_sensitive (body : string) :
  ~ str_In "P" body ->
  FindStringSubmatch msPattern body = [] /\
  FindStringSubmatch secPattern body = [] /\
  extractWaitTime body = 0.
Proof.
  intros Hno.
  assert (FindStringSubmatch msPattern body = []) as Hms.
  { apply (find_none "millisecond"). intros Hp. apply Hno.
    now apply (has_phrase_capital "millisecond"). }
  assert (FindStringSubmatch secPattern body = []) as Hsec.
  { apply (find_none "second"). intros Hp. apply Hno.
    now apply (has_phrase_capital "second"). }
  split; [exact Hms|]. split; [exact Hsec|]. now apply extract_none.
Qed.

End Further.

(** ** Runs of the further properties on the simulated platform *)

Section FurtherRuns.
#[local] Existing Instance simPlatform.

Lemma server_abides answer : abides (server answer).
Proof. intros req tm n. left. discriminate. Qed.

Lemma server_scripted answer : scripted (server answer) (fun n => n) answer.
Proof. intros req tm n. exists (S n). split; reflexivity. Qed.

(** X3, witness: the server of TestRateLimitRetry. *)
Lemma X3_returns_witness :
  let t := transportOf (server (flaky 2 (rateLimited "Please wait 100 milliseconds"))) 5 in
  abides (delegate t) /\
  exists resp err, (RoundTrip t (get None) world0).1.1 = Return resp err.
Proof.
  intros t.
  assert (abides (delegate t)) as Hab by apply server_abides.
  split; [exact Hab|].
  exact (@X3_returns simPlatform t (get None) world0 Hab).
Defined.

(** X4, witness: a request whose context has expired before the call. *)
Lemma X4_transport_error_witness :
  let t := transportOf (ctxServer (fun _ => okResponse)) 5 in
  RoundTrip t (get (Some 0)) world0
    = (Return None (Some DeadlineExceeded), applyDefaults t,
       dispatched world0 0%nat (get (Some 0))).
Proof.
  intros t.
  apply (proj2 (@X4_transport_error simPlatform t (get (Some 0)) None DeadlineExceeded)
           world0 0%nat eq_refl).
  simpl; lia.
Defined.

(** X5, witness: a 429 response whose body breaks off. *)
Lemma X5_unreadable_body_witness :
  let t := transportOf (server (fun _ => rateLimitedUnreadable)) 3 in
  RoundTrip t (get None) world0
    = (Return (Some rateLimitedUnreadable) (Some (readFailed unexpectedEOF)),
       applyDefaults t, drained (dispatched world0 1%nat (get None))) /\
  Error (readFailed unexpectedEOF)
    = "failed to read rate limit response: unexpected EOF".
Proof.
  intros t.
  destruct (@X5_unreadable_body simPlatform t (get None) rateLimitedUnreadable
              unexpectedEOF eq_refl eq_refl) as (_ & Hrun & Htext).
  destruct (Hrun world0 1%nat eq_refl ltac:(simpl; lia)) as [Hres _].
  split; [exact Hres|]. rewrite Htext. reflexivity.
Defined.

(** X6, witness: MaxRetries -1. *)
Lemma X6_negative_ceiling_witness :
  let t := transportOf (server (fun _ => okResponse)) (-1) in
  RoundTrip t (get None) world0 = (Return None None, applyDefaults t, world0).
Proof.
  intros t.
  exact (proj1 (@X6_negative_ceiling simPlatform t (get None) world0
                  ltac:(simpl; lia))).
Defined.

(** X7, witness: the server of TestRateLimitRetry, two rate limits and then
    a success. *)
Lemma X7_success_after_retries_witness :
  let answers := flaky 2 (rateLimited "Please wait 100 milliseconds") in
  let t := transportOf (server answers) 5 in
  let run := RoundTrip t (get None) world0 in
  run.1.1 = Return (Some okResponse) None /\
  dispatches (log run.2) - dispatches (log world0) = 3 /\
  sleeps (log run.2) = [160 * Millisecond; 160 * Millisecond] /\
  now run.2 = 320 * Millisecond.
Proof.
  intros answers t run.
  assert (forall i, (i < 2)%nat -> rate_limits (answers (0 + i)%nat)) as Hlim.
  { intros i Hi. destruct i as [|[|i]]; [split; reflexivity | split; reflexivity | lia]. }
  exact (@X7_success_after_retries simPlatform t (get None) world0
           (fun n => n) answers 2%nat (server_scripted answers) Hlim
           ltac:(discriminate) ltac:(vm_compute; discriminate)).
Defined.

(** X8, witness: a body hint of 100 ms beside a Retry-After of 2 s. *)
Lemma X8_body_hint_decides_witness :
  let r := rateLimitedHeader "2" "Please wait 100 milliseconds" in
  let t := transportOf (server (flaky 1 r)) 5 in
  first_phrase "millisecond" (data (Body r)) "100" /\
  attemptOnce t (get None) 0 world0
    = (Continue (Some r) None,
       waited (160 * Millisecond) 0 5 (drained (dispatched world0 1%nat (get None)))).
Proof.
  intros r t.
  assert (first_phrase "millisecond" (data (Body r)) "100") as Hf.
  { eapply first_of_find. vm_compute. reflexivity. }
  split; [exact Hf|].
  exact (proj2 (@X8_body_hint_decides simPlatform t (get None) 0 world0
                  (server (flaky 1 r)) r 1%nat "100"
                  eq_refl eq_refl (conj eq_refl eq_refl) ltac:(simpl; lia) Hf
                  ltac:(vm_compute; reflexivity)
                  ltac:(vm_compute; discriminate))).
Defined.

(** X9, witness: Retry-After of 2 seconds, and of 0 seconds at attempt 3. *)
Lemma X9_header_hint_witness :
  computedWait (rateLimitedHeader "2" "rate_limit") "rate_limit" 3 = 2 * Second /\
  computedWait (rateLimitedHeader "0" "rate_limit") "rate_limit" 3 = fallbackWait 3.
Proof.
  split.
  - apply (proj1 (@X9_header_hint simPlatform (rateLimitedHeader "2" "rate_limit")
                    "rate_limit" 3 2
                    ltac:(vm_compute; reflexivity) ltac:(vm_compute; reflexivity)
                    ltac:(vm_compute; discriminate) ltac:(vm_compute; reflexivity))).
    vm_compute. discriminate.
  - apply (proj2 (@X9_header_hint simPlatform (rateLimitedHeader "0" "rate_limit")
                    "rate_limit" 3 0
                    ltac:(vm_compute; reflexivity) ltac:(vm_compute; reflexivity)
                    ltac:(vm_compute; discriminate) ltac:(vm_compute; reflexivity))).
    vm_compute. reflexivity.
Defined.


(** X11, witness: 2^63 milliseconds, alone and before a seconds phrase. *)
Lemma X11_overflowing_number_witness :
  extractWaitTime "Please wait 9223372036854775808 milliseconds" = 0 /\
  extractWaitTime
    "Please wait 9223372036854775808 milliseconds. Please wait 3 seconds."
    = 3 * Second.
Proof.
  split.
  - apply (proj1 (X11_overflowing_number
                    "Please wait 9223372036854775808 milliseconds"
                    "9223372036854775808"
                    ltac:(eapply first_of_find; vm_compute; reflexivity)
                    ltac:(vm_compute; reflexivity))).
    apply no_phrase_of_find. vm_compute. reflexivity.
  - apply (proj2 (X11_overflowing_number
                    "Please wait 9223372036854775808 milliseconds. Please wait 3 seconds."
                    "9223372036854775808"
                    ltac:(eapply first_of_find; vm_compute; reflexivity)
                    ltac:(vm_compute; reflexivity)) "3").
    + eapply first_of_find. vm_compute. reflexivity.
    + vm_compute. discriminate.
Defined.

(** X12, witness: a 429 response without hints at attempt 60. *)
Lemma X12_fallback_runs_out_witness :
  bufferedWait (computedWait (rateLimited "rate_limit") "rate_limit" 60)
    = 50 * Millisecond.
Proof.
  exact (proj2 (@X12_fallback_runs_out simPlatform (rateLimited "rate_limit")
                  "rate_limit" 60
                  ltac:(vm_compute; reflexivity) ltac:(vm_compute; reflexivity)
                  (or_introl eq_refl) ltac:(lia))).
Defined.

(** X13, witness: waits of 100 ms and 200 ms. *)
Lemma X13_buffer_lengthens_witness :
  100 * Millisecond + 50 * Millisecond <= bufferedWait (100 * Millisecond) /\
  bufferedWait (100 * Millisecond) <= bufferedWait (200 * Millisecond).
Proof.
  apply (X13_buffer_lengthens (100 * Millisecond) (200 * Millisecond)).
  - unfold Millisecond; lia.
  - vm_compute. discriminate.
Defined.

(** X16, witness: the phrase in lower case. *)
Lemma X16_case_sensitive_witness :
  extractWaitTime "please wait 5 seconds" = 0.
Proof.
  apply (X16_case_sensitive "please wait 5 seconds").
  simpl. intros H.
  repeat (destruct H as [H | H]; [discriminate H|]). exact H.
Defined.

End FurtherRuns.
